(** * StoryTrackEditor: the timeline editor of voicebox

    A shallow embedding of
    [app/src/components/StoriesTab/StoryTrackEditor.tsx]: the time/pixel
    mapper, the zoom steps, the panel-resize, drag, trim and split handlers,
    the auto-scroll effect and the wiring of the handlers to DOM events.

    JavaScript numbers are embedded as exact rationals ([Q]): [NaN], the
    infinities and the rounding of binary64 arithmetic are outside the model.
    Comparisons are the numeric ones ([Qle_bool], [Qeq_bool]), so two
    representations of one rational are never told apart by the handlers.
    React state updates are applied in sequence: a handler reads the state
    left by the previous event. *)

From Stdlib Require Import ZArith QArith Qround List String Bool Lia Lqa.
From Stdlib Require PrimFloat.
From Stdlib Require DecimalString.
From Stdlib Require Import Permutation Sorted.
Import ListNotations.

Local Open Scope Q_scope.

(** ** JavaScript numbers and [Math] *)

(** A JavaScript [number]. *)
Abbreviation number := Q (only parsing).

Module JS.

(** [a < b], [a <= b], [a === b] on numbers. *)
Definition ltb (a b : number) : bool := negb (Qle_bool b a).
Definition leb (a b : number) : bool := Qle_bool a b.
Definition eqb (a b : number) : bool := Qeq_bool a b.

Definition Math_max (a b : number) : number := if leb a b then b else a.
Definition Math_min (a b : number) : number := if leb a b then a else b.

(** [Math.floor] as an integer, for array indices. *)
Definition Math_floor (x : number) : Z := Qfloor x.

(** [Math.round]: the nearest integer, halves towards +infinity. *)
Definition Math_round (x : number) : number := inject_Z (Qfloor (x + (1 # 2))).

(** A number that is an integer. *)
Definition is_integer (x : number) : Prop := exists k : Z, x == inject_Z k.

(** [o || 0] on an optional integer field. *)
Definition orZero (o : option Z) : number :=
  match o with
  | Some z => inject_Z z
  | None => 0
  end.

End JS.

Import JS.

(** ** Clips *)

Module Item.

(** Modelled from the spec: the declaration of [StoryItemDetail]
    ([lib/api/types]) is missing; the fields are those the editor reads,
    typed by the data model (integer lane and times, duration in seconds
    as a number, trim amounts that may be absent). *)
Record StoryItemDetail : Type := {
  id : string;
  track : Z;
  start_time_ms : Z;
  duration : number;
  trim_start_ms : option Z;
  trim_end_ms : option Z;
  profile_name : string;
  generation_id : string
}.

End Item.

(** ** Constants *)

Definition TRACK_HEIGHT : number := 48.
Definition TIME_RULER_HEIGHT : number := 24.
Definition MIN_PIXELS_PER_SECOND : number := 10.
Definition MAX_PIXELS_PER_SECOND : number := 200.
Definition DEFAULT_PIXELS_PER_SECOND : number := 50.
Definition DEFAULT_TRACKS : list Z := [1; 0; -1]%Z.
Definition MIN_EDITOR_HEIGHT : number := 120.
Definition MAX_EDITOR_HEIGHT : number := 500.

(** ** Time/pixel mapper and zoom *)

Definition msToPixels (pixelsPerSecond ms : number) : number :=
  (ms / 1000) * pixelsPerSecond.

Definition pixelsToMs (pixelsPerSecond px : number) : number :=
  (px / pixelsPerSecond) * 1000.

(** The updater functions passed to [setPixelsPerSecond]. *)
Definition zoomIn (prev : number) : number :=
  Math_min (prev * (3 # 2)) MAX_PIXELS_PER_SECOND.

Definition zoomOut (prev : number) : number :=
  Math_max (prev / (3 # 2)) MIN_PIXELS_PER_SECOND.

(** ** Track list *)

(** [new Set(xs)] followed by [Array.from]: first occurrences, in order. *)
Fixpoint Set_from (seen xs : list Z) : list Z :=
  match xs with
  | [] => []
  | x :: rest =>
      if existsb (Z.eqb x) seen then Set_from seen rest
      else x :: Set_from (x :: seen) rest
  end.

(** [sort((a, b) => b - a)]: descending. *)
Fixpoint insert_desc (x : Z) (l : list Z) : list Z :=
  match l with
  | [] => [x]
  | y :: rest => if (y <=? x)%Z then x :: l else y :: insert_desc x rest
  end.

Definition sort_desc (l : list Z) : list Z := fold_right insert_desc [] l.

Definition tracksOf (items : list Item.StoryItemDetail) : list Z :=
  sort_desc (Set_from [] (DEFAULT_TRACKS ++ map Item.track items)).

(** [tracks.indexOf(trackNumber)], -1 when absent. *)
Fixpoint indexOf (l : list Z) (x : Z) : Z :=
  match l with
  | [] => (-1)%Z
  | y :: rest =>
      if (y =? x)%Z then 0%Z
      else let i := indexOf rest x in if (i <? 0)%Z then (-1)%Z else (i + 1)%Z
  end.

(** [getEffectiveDuration]. *)
Definition getEffectiveDuration (item : Item.StoryItemDetail) : number :=
  Item.duration item * 1000 - orZero (Item.trim_start_ms item)
  - orZero (Item.trim_end_ms item).

(** ** DOM values *)

Module Point.
Record t : Type := { x : number; y : number }.
End Point.

(** The fields of a [MouseEvent] the handlers read. *)
Record MouseEvent : Type := { clientX : number; clientY : number }.

(** [getBoundingClientRect()]: the corner the handlers read. *)
Module DOMRect.
Record t : Type := { left : number; top : number }.
End DOMRect.

(** The scrollable timeline element behind [tracksRef.current]. *)
Record Container : Type := {
  boundingRect : DOMRect.t;
  scrollLeft : number;
  clientWidth : number
}.

Definition set_scrollLeft (v : number) (c : Container) : Container :=
  {| boundingRect := boundingRect c; scrollLeft := v; clientWidth := clientWidth c |}.

(** ** Component state *)

Inductive Side : Type := SideStart | SideEnd.

Module Trim.
(** The value of [tempTrimValues] and the payload of a trim. *)
Record Values : Type := { trim_start_ms : number; trim_end_ms : number }.
End Trim.

(** The value held by [trimStartItemRef]. *)
Record TrimStartItem : Type := {
  item : Item.StoryItemDetail;
  initialTrimStart : number;
  initialTrimEnd : number
}.

Record DragState : Type := {
  draggingItem : option string;
  dragOffset : Point.t;
  dragPosition : Point.t
}.

Record TrimState : Type := {
  trimmingItem : option string;
  trimSide : option Side;
  trimStartX : number;
  tempTrimValues : option Trim.Values;
  trimStartItemRef : option TrimStartItem
}.

Record ResizeState : Type := {
  isResizing : bool;
  resizeStartY : number;
  resizeStartHeight : number
}.

(** The part of [useStoryStore] the editor reads and writes.
    Modelled from the spec: the store ([stores/storyStore]) is missing; its
    setters are plain assignments and [seek] sets [currentTimeMs]. *)
Record Store : Type := {
  selectedClipId : option string;
  trackEditorHeight : number;
  isPlaying : bool;
  currentTimeMs : number;
  playbackStoryId : option string
}.

Record State : Type := {
  pixelsPerSecond : number;
  drag : DragState;
  trim : TrimState;
  resize : ResizeState;
  store : Store;
  tracksRef : option Container
}.

(** *** Setters *)

Notation "s |> f" := (f s) (at level 45, left associativity, only parsing).

Definition with_drag (f : DragState -> DragState) (s : State) : State :=
  {| pixelsPerSecond := pixelsPerSecond s; drag := f (drag s); trim := trim s;
     resize := resize s; store := store s; tracksRef := tracksRef s |}.

Definition with_trim (f : TrimState -> TrimState) (s : State) : State :=
  {| pixelsPerSecond := pixelsPerSecond s; drag := drag s; trim := f (trim s);
     resize := resize s; store := store s; tracksRef := tracksRef s |}.

Definition with_resize (f : ResizeState -> ResizeState) (s : State) : State :=
  {| pixelsPerSecond := pixelsPerSecond s; drag := drag s; trim := trim s;
     resize := f (resize s); store := store s; tracksRef := tracksRef s |}.

Definition with_store (f : Store -> Store) (s : State) : State :=
  {| pixelsPerSecond := pixelsPerSecond s; drag := drag s; trim := trim s;
     resize := resize s; store := f (store s); tracksRef := tracksRef s |}.

Definition setPixelsPerSecond (f : number -> number) (s : State) : State :=
  {| pixelsPerSecond := f (pixelsPerSecond s); drag := drag s; trim := trim s;
     resize := resize s; store := store s; tracksRef := tracksRef s |}.

Definition set_tracksRef (c : option Container) (s : State) : State :=
  {| pixelsPerSecond := pixelsPerSecond s; drag := drag s; trim := trim s;
     resize := resize s; store := store s; tracksRef := c |}.

Definition setDraggingItem (v : option string) : State -> State :=
  with_drag (fun d => {| draggingItem := v; dragOffset := dragOffset d;
                         dragPosition := dragPosition d |}).

Definition setDragOffset (v : Point.t) : State -> State :=
  with_drag (fun d => {| draggingItem := draggingItem d; dragOffset := v;
                         dragPosition := dragPosition d |}).

Definition setDragPosition (v : Point.t) : State -> State :=
  with_drag (fun d => {| draggingItem := draggingItem d; dragOffset := dragOffset d;
                         dragPosition := v |}).

Definition setTrimmingItem (v : option string) : State -> State :=
  with_trim (fun t => {| trimmingItem := v; trimSide := trimSide t;
                         trimStartX := trimStartX t;
                         tempTrimValues := tempTrimValues t;
                         trimStartItemRef := trimStartItemRef t |}).

Definition setTrimSide (v : option Side) : State -> State :=
  with_trim (fun t => {| trimmingItem := trimmingItem t; trimSide := v;
                         trimStartX := trimStartX t;
                         tempTrimValues := tempTrimValues t;
                         trimStartItemRef := trimStartItemRef t |}).

Definition setTrimStartX (v : number) : State -> State :=
  with_trim (fun t => {| trimmingItem := trimmingItem t; trimSide := trimSide t;
                         trimStartX := v;
                         tempTrimValues := tempTrimValues t;
                         trimStartItemRef := trimStartItemRef t |}).

Definition setTempTrimValues (v : option Trim.Values) : State -> State :=
  with_trim (fun t => {| trimmingItem := trimmingItem t; trimSide := trimSide t;
                         trimStartX := trimStartX t;
                         tempTrimValues := v;
                         trimStartItemRef := trimStartItemRef t |}).

Definition set_trimStartItemRef (v : option TrimStartItem) : State -> State :=
  with_trim (fun t => {| trimmingItem := trimmingItem t; trimSide := trimSide t;
                         trimStartX := trimStartX t;
                         tempTrimValues := tempTrimValues t;
                         trimStartItemRef := v |}).

Definition setIsResizing (v : bool) : State -> State :=
  with_resize (fun r => {| isResizing := v; resizeStartY := resizeStartY r;
                           resizeStartHeight := resizeStartHeight r |}).

Definition set_resizeStartY (v : number) : State -> State :=
  with_resize (fun r => {| isResizing := isResizing r; resizeStartY := v;
                           resizeStartHeight := resizeStartHeight r |}).

Definition set_resizeStartHeight (v : number) : State -> State :=
  with_resize (fun r => {| isResizing := isResizing r; resizeStartY := resizeStartY r;
                           resizeStartHeight := v |}).

Definition setSelectedClipId (v : option string) : State -> State :=
  with_store (fun st => {| selectedClipId := v;
                           trackEditorHeight := trackEditorHeight st;
                           isPlaying := isPlaying st;
                           currentTimeMs := currentTimeMs st;
                           playbackStoryId := playbackStoryId st |}).

Definition setEditorHeight (v : number) : State -> State :=
  with_store (fun st => {| selectedClipId := selectedClipId st;
                           trackEditorHeight := v;
                           isPlaying := isPlaying st;
                           currentTimeMs := currentTimeMs st;
                           playbackStoryId := playbackStoryId st |}).

Definition seek (v : number) : State -> State :=
  with_store (fun st => {| selectedClipId := selectedClipId st;
                           trackEditorHeight := trackEditorHeight st;
                           isPlaying := isPlaying st;
                           currentTimeMs := v;
                           playbackStoryId := playbackStoryId st |}).

Definition editorHeight (s : State) : number := trackEditorHeight (store s).

(** Truthiness of a [string | null]: [null] and the empty string are falsy. *)
Definition truthy (o : option string) : bool :=
  match o with
  | Some EmptyString => false
  | Some _ => true
  | None => false
  end.

(** [a === b] on [string | null]. *)
Definition id_eqb (a b : option string) : bool :=
  match a, b with
  | Some u, Some v => String.eqb u v
  | None, None => true
  | _, _ => false
  end.

(** ** Effects of the handlers *)

Inductive Effect : Type :=
| moveItem_mutate (storyId itemId : string) (start_time_ms : number) (track : Z)
| trimItem_mutate (storyId itemId : string) (data : Trim.Values)
| splitItem_mutate (storyId itemId : string) (split_time_ms : number)
                   (onSuccess : State -> State)
| toast (title description : string).


(** ** What is rendered *)

Module Style.
Record t : Type := { width : number; left : number; top : number; height : number }.
End Style.

Record ClipView : Type := {
  clip : Item.StoryItemDetail;
  style : Style.t;
  isDragging : bool;
  isSelected : bool;
  isTrimming : bool;
  trimHandles : bool
}.

Record View : Type := {
  showPause : bool;
  stopDisabled : bool;
  clipControls : bool;
  timelineContainerHeight : number;
  trackLabels : list Z;
  tracksAreaHeight : number;
  clips : list ClipView;
  playhead : number
}.

(** ** The component *)

Section StoryTrackEditor.

(** The props. *)
Variable storyId : string.
Variable items : list Item.StoryItemDetail.

Definition tracks : list Z := tracksOf items.

(** [items.find((i) => i.id === id)] for a [string | null] id. *)
Definition findItem (oid : option string) : option Item.StoryItemDetail :=
  match oid with
  | Some i => find (fun it => String.eqb (Item.id it) i) items
  | None => None
  end.

Definition isCurrentlyPlaying (s : State) : bool :=
  isPlaying (store s) && id_eqb (playbackStoryId (store s)) (Some storyId).

(** *** Zoom *)

Definition handleZoomIn (s : State) : State := setPixelsPerSecond zoomIn s.
Definition handleZoomOut (s : State) : State := setPixelsPerSecond zoomOut s.

(** *** Panel resize *)

Definition handleResizeStart (e : MouseEvent) (s : State) : State :=
  s |> setIsResizing true
    |> set_resizeStartY (clientY e)
    |> set_resizeStartHeight (editorHeight s).

(** The height [handleResizeMove] passes to [setEditorHeight]. *)
Definition resizedHeight (startHeight startY currentY : number) : number :=
  let deltaY := startY - currentY in
  Math_min MAX_EDITOR_HEIGHT (Math_max MIN_EDITOR_HEIGHT (startHeight + deltaY)).

Definition handleResizeMove (e : MouseEvent) (s : State) : State :=
  if negb (isResizing (resize s)) then s
  else
    let newHeight :=
      resizedHeight (resizeStartHeight (resize s)) (resizeStartY (resize s))
                    (clientY e) in
    s |> setEditorHeight newHeight.

Definition handleResizeEnd (s : State) : State := s |> setIsResizing false.

(** *** Clicks *)

Definition handleTimelineClick (e : MouseEvent) (s : State) : State :=
  match tracksRef s with
  | None => s
  | Some c =>
      if truthy (draggingItem (drag s)) || truthy (trimmingItem (trim s)) then s
      else
        let x := clientX e - DOMRect.left (boundingRect c) + scrollLeft c in
        let timeMs := Math_max 0 (pixelsToMs (pixelsPerSecond s) x) in
        s |> seek timeMs |> setSelectedClipId None
  end.

Definition handleClipClick (it : Item.StoryItemDetail) (s : State) : State :=
  if truthy (draggingItem (drag s)) || truthy (trimmingItem (trim s)) then s
  else s |> setSelectedClipId (Some (Item.id it)).

(** *** Trim *)

Definition handleTrimStart (e : MouseEvent) (it : Item.StoryItemDetail)
           (side : Side) (s : State) : State :=
  match tracksRef s with
  | None => s
  | Some _ =>
      s |> setTrimmingItem (Some (Item.id it))
        |> setTrimSide (Some side)
        |> setSelectedClipId (Some (Item.id it))
        |> setTrimStartX (clientX e)
        |> set_trimStartItemRef
             (Some {| item := it;
                      initialTrimStart := orZero (Item.trim_start_ms it);
                      initialTrimEnd := orZero (Item.trim_end_ms it) |})
  end.

(** The pair [(newTrimStart, newTrimEnd)] computed by [handleTrimMove]. *)
Definition newTrim (side : Side) (r : TrimStartItem) (deltaMs : number)
  : Trim.Values :=
  let originalDurationMs := Item.duration (item r) * 1000 in
  match side with
  | SideStart =>
      {| Trim.trim_start_ms :=
           Math_round
             (Math_max 0
                (Math_min (initialTrimStart r + deltaMs)
                          (originalDurationMs - initialTrimEnd r - 100)));
         Trim.trim_end_ms := initialTrimEnd r |}
  | SideEnd =>
      {| Trim.trim_start_ms := initialTrimStart r;
         Trim.trim_end_ms :=
           Math_round
             (Math_max 0
                (Math_min (initialTrimEnd r - deltaMs)
                          (originalDurationMs - initialTrimStart r - 100))) |}
  end.

Definition handleTrimMove (e : MouseEvent) (s : State) : State :=
  match truthy (trimmingItem (trim s)), trimSide (trim s),
        trimStartItemRef (trim s) with
  | true, Some side, Some r =>
      let deltaX := clientX e - trimStartX (trim s) in
      let deltaMs := pixelsToMs (pixelsPerSecond s) deltaX in
      let originalDurationMs := Item.duration (item r) * 1000 in
      let v := newTrim side r deltaMs in
      if leb (originalDurationMs - 100)
             (Trim.trim_start_ms v + Trim.trim_end_ms v)
      then s
      else s |> setTempTrimValues (Some v)
  | _, _, _ => s
  end.

Definition resetTrim (s : State) : State :=
  s |> setTrimmingItem None
    |> setTrimSide None
    |> setTempTrimValues None
    |> set_trimStartItemRef None.

(** [tempTrimValues?.f ?? d]. *)
Definition tempOr (f : Trim.Values -> number) (d : number) (s : State) : number :=
  match tempTrimValues (trim s) with
  | Some v => f v
  | None => d
  end.

Definition handleTrimEnd (s : State) : State * list Effect :=
  match trimmingItem (trim s), truthy (trimmingItem (trim s)),
        trimSide (trim s), trimStartItemRef (trim s) with
  | Some itemId, true, Some _, Some r =>
      let finalTrimStart :=
        Math_round (tempOr Trim.trim_start_ms (initialTrimStart r) s) in
      let finalTrimEnd :=
        Math_round (tempOr Trim.trim_end_ms (initialTrimEnd r) s) in
      let effects :=
        if negb (eqb finalTrimStart (initialTrimStart r))
           || negb (eqb finalTrimEnd (initialTrimEnd r))
        then [trimItem_mutate storyId itemId
                {| Trim.trim_start_ms := finalTrimStart;
                   Trim.trim_end_ms := finalTrimEnd |}]
        else [] in
      (resetTrim s, effects)
  | _, _, _, _ => (resetTrim s, [])
  end.

(** *** Split *)

Definition handleSplit (s : State) : State * list Effect :=
  match selectedClipId (store s), truthy (selectedClipId (store s)) with
  | Some sel, true =>
      match findItem (Some sel) with
      | None => (s, [])
      | Some it =>
          let splitTimeMs :=
            currentTimeMs (store s) - inject_Z (Item.start_time_ms it) in
          let effectiveDuration := getEffectiveDuration it in
          if leb splitTimeMs 0 || leb effectiveDuration splitTimeMs
          then (s, [toast "Invalid split point"
                          "Playhead must be within the selected clip"])
          else (s, [splitItem_mutate storyId sel splitTimeMs
                      (setSelectedClipId None)])
      end
  | _, _ => (s, [])
  end.

(** *** Drag *)

Definition handleDragStart (e : MouseEvent) (rect : DOMRect.t)
           (it : Item.StoryItemDetail) (s : State) : State :=
  match tracksRef s with
  | None => s
  | Some c =>
      s |> setDragOffset
             {| Point.x := clientX e - DOMRect.left rect;
                Point.y := clientY e - DOMRect.top rect |}
        |> setDragPosition
             {| Point.x := DOMRect.left rect - DOMRect.left (boundingRect c)
                           + scrollLeft c;
                Point.y := DOMRect.top rect - DOMRect.top (boundingRect c)
                           - TIME_RULER_HEIGHT |}
        |> setDraggingItem (Some (Item.id it))
  end.

Definition handleDragMove (e : MouseEvent) (s : State) : State :=
  match truthy (draggingItem (drag s)), tracksRef s with
  | true, Some c =>
      let x := clientX e - DOMRect.left (boundingRect c) + scrollLeft c
               - Point.x (dragOffset (drag s)) in
      let y := clientY e - DOMRect.top (boundingRect c)
               - Point.y (dragOffset (drag s)) - TIME_RULER_HEIGHT in
      s |> setDragPosition {| Point.x := Math_max 0 x; Point.y := y |}
  | _, _ => s
  end.

(** [newTimeMs] of [handleDragEnd]. *)
Definition newTimeMs (s : State) : number :=
  Math_max 0
    (Math_round (pixelsToMs (pixelsPerSecond s) (Point.x (dragPosition (drag s))))).

(** [newTrack] of [handleDragEnd]: [tracks[clampedTrackIndex] ?? 0]. *)
Definition newTrack (s : State) : Z :=
  let trackIndex := Math_floor (Point.y (dragPosition (drag s)) / TRACK_HEIGHT) in
  let clampedTrackIndex :=
    Z.max 0 (Z.min trackIndex (Z.of_nat (List.length tracks) - 1)) in
  nth (Z.to_nat clampedTrackIndex) tracks 0%Z.

Definition handleDragEnd (s : State) : State * list Effect :=
  match truthy (draggingItem (drag s)), tracksRef s with
  | true, Some _ =>
      match findItem (draggingItem (drag s)) with
      | None => (s |> setDraggingItem None, [])
      | Some it =>
          let effects :=
            if negb (eqb (newTimeMs s) (inject_Z (Item.start_time_ms it)))
               || negb (Z.eqb (newTrack s) (Item.track it))
            then [moveItem_mutate storyId (Item.id it) (newTimeMs s) (newTrack s)]
            else [] in
          (s |> setDraggingItem None, effects)
      end
  | _, _ => (s |> setDraggingItem None, [])
  end.

(** *** Auto-scroll effect *)

Definition playheadLeft (s : State) : number :=
  msToPixels (pixelsPerSecond s) (currentTimeMs (store s)).

Definition autoScroll (s : State) : State :=
  match isCurrentlyPlaying s, tracksRef s with
  | true, Some container =>
      let containerWidth := clientWidth container in
      let halfwayPoint := scrollLeft container + containerWidth / 2 in
      if ltb halfwayPoint (playheadLeft s)
      then
        let targetScroll := playheadLeft s - containerWidth / 2 in
        s |> set_tracksRef (Some (set_scrollLeft targetScroll container))
      else s
  | _, _ => s
  end.

(** *** Rendering *)

Definition getTrackIndex (trackNumber : Z) : Z := indexOf tracks trackNumber.

(** [getClipStyle] applied to [{...item, trim_start_ms, trim_end_ms}]: the
    two displayed trim values are passed beside the clip. *)
Definition getClipStyle (s : State) (it : Item.StoryItemDetail)
           (displayTrimStart displayTrimEnd : number) : Style.t :=
  let isDragging := id_eqb (draggingItem (drag s)) (Some (Item.id it)) in
  let trackIndex := getTrackIndex (Item.track it) in
  let effectiveDuration :=
    Item.duration it * 1000 - displayTrimStart - displayTrimEnd in
  {| Style.width := msToPixels (pixelsPerSecond s) effectiveDuration;
     Style.left :=
       if isDragging then Point.x (dragPosition (drag s))
       else msToPixels (pixelsPerSecond s) (inject_Z (Item.start_time_ms it));
     Style.top :=
       if isDragging then Point.y (dragPosition (drag s))
       else inject_Z trackIndex * TRACK_HEIGHT;
     Style.height := TRACK_HEIGHT - 4 |}.

Definition displayTrim (s : State) (it : Item.StoryItemDetail) : Trim.Values :=
  let isTrimming := id_eqb (trimmingItem (trim s)) (Some (Item.id it)) in
  match isTrimming, tempTrimValues (trim s) with
  | true, Some v => v
  | _, _ => {| Trim.trim_start_ms := orZero (Item.trim_start_ms it);
               Trim.trim_end_ms := orZero (Item.trim_end_ms it) |}
  end.

Definition renderClip (s : State) (it : Item.StoryItemDetail) : ClipView :=
  let d := displayTrim s it in
  {| clip := it;
     style := getClipStyle s it (Trim.trim_start_ms d) (Trim.trim_end_ms d);
     isDragging := id_eqb (draggingItem (drag s)) (Some (Item.id it));
     isSelected := id_eqb (selectedClipId (store s)) (Some (Item.id it));
     isTrimming := id_eqb (trimmingItem (trim s)) (Some (Item.id it));
     trimHandles := id_eqb (selectedClipId (store s)) (Some (Item.id it)) |}.

(** The element returned by the component, [None] for [null]. *)
Definition render (s : State) : option View :=
  if (List.length items =? 0)%nat then None
  else
    Some {| showPause := isCurrentlyPlaying s;
            stopDisabled := negb (isCurrentlyPlaying s);
            clipControls := truthy (selectedClipId (store s));
            timelineContainerHeight := editorHeight s - 40;
            trackLabels := tracks;
            tracksAreaHeight := inject_Z (Z.of_nat (List.length tracks)) * TRACK_HEIGHT;
            clips := map (renderClip s) items;
            playhead := playheadLeft s |}.

(** *** Event wiring *)

(** What the pointer is pressed on or clicks. *)
Inductive Target : Type :=
| ClipButton (it : Item.StoryItemDetail) (rect : DOMRect.t)
| TrimHandle (it : Item.StoryItemDetail) (side : Side)
| ResizeHandle
| Timeline
| ZoomInButton
| ZoomOutButton
| SplitButton.

Inductive DomEvent : Type :=
| MouseDown (t : Target) (e : MouseEvent)
| MouseMove (e : MouseEvent)
| MouseUp
| MouseLeave
| MouseEnter
| Click (t : Target) (e : MouseEvent)
| StoreUpdate (f : Store -> Store)
| LayoutChange (c : option Container)
| AutoScrollEffect.

(** The pointer as the browser knows it: is the button held, is the
    pointer over the scrollable timeline element. *)
Record Pointer : Type := { buttonDown : bool; overTimeline : bool }.

Definition lift (h : State -> State) (s : State) : State * list Effect := (h s, []).

Definition andThen (h1 h2 : State -> State * list Effect) (s : State)
  : State * list Effect :=
  let (s1, e1) := h1 s in
  let (s2, e2) := h2 s1 in
  (s2, e1 ++ e2).

Definition when (c : State -> bool) (h : State -> State * list Effect)
           (s : State) : State * list Effect :=
  if c s then h s else (s, []).

Definition dragOn (s : State) : bool := truthy (draggingItem (drag s)).
Definition trimOn (s : State) : bool := truthy (trimmingItem (trim s)).
Definition resizeOn (s : State) : bool := isResizing (resize s).

(** The three mode flags of a state, as the code tests them. *)
Definition flags (s : State) : bool * bool * bool := (dragOn s, trimOn s, resizeOn s).

(** The listeners of the JSX and of the two [useEffect]s on [window]:
    the timeline element carries [onMouseMove], [onMouseUp] and
    [onMouseLeave] while [draggingItem] is truthy; [window] carries the
    trim listeners while [trimmingItem] is truthy and the resize
    listeners while [isResizing]. An event on the element bubbles to
    [window] afterwards. A press on the clip button starts a drag (a trim
    handle is not inside the button, so [closest('.trim-handle')] finds
    nothing there); the trim handles exist only on the selected clip and
    the split button only with a selection. No handler reads [e.button]. *)
Definition dispatch (p : Pointer) (ev : DomEvent) : State -> State * list Effect :=
  match ev with
  | MouseDown (ClipButton it rect) e => lift (handleDragStart e rect it)
  | MouseDown (TrimHandle it side) e =>
      when (fun s => id_eqb (selectedClipId (store s)) (Some (Item.id it)))
           (lift (handleTrimStart e it side))
  | MouseDown ResizeHandle e => lift (handleResizeStart e)
  | MouseDown _ _ => lift (fun s => s)
  | MouseMove e =>
      andThen
        (when (fun s => overTimeline p && dragOn s) (lift (handleDragMove e)))
        (andThen (when trimOn (lift (handleTrimMove e)))
                 (when resizeOn (lift (handleResizeMove e))))
  | MouseUp =>
      andThen
        (when (fun s => overTimeline p && dragOn s) handleDragEnd)
        (andThen (when trimOn handleTrimEnd)
                 (when resizeOn (lift handleResizeEnd)))
  | MouseLeave => when dragOn handleDragEnd
  | MouseEnter => lift (fun s => s)
  | Click (ClipButton it _) _ => lift (handleClipClick it)
  | Click Timeline e => lift (handleTimelineClick e)
  | Click ZoomInButton _ => lift handleZoomIn
  | Click ZoomOutButton _ => lift handleZoomOut
  | Click SplitButton _ =>
      when (fun s => truthy (selectedClipId (store s))) handleSplit
  | Click _ _ => lift (fun s => s)
  | StoreUpdate f => lift (with_store f)
  | LayoutChange c => lift (set_tracksRef c)
  | AutoScrollEffect => lift autoScroll
  end.

(** Is the target inside the scrollable timeline element? *)
Definition insideTimeline (t : Target) : bool :=
  match t with
  | ClipButton _ _ | TrimHandle _ _ | Timeline => true
  | ResizeHandle | ZoomInButton | ZoomOutButton | SplitButton => false
  end.

(** The pointer after an event. *)
Definition movePointer (p : Pointer) (ev : DomEvent) : Pointer :=
  match ev with
  | MouseDown _ _ => {| buttonDown := true; overTimeline := overTimeline p |}
  | MouseUp => {| buttonDown := false; overTimeline := overTimeline p |}
  | MouseLeave => {| buttonDown := buttonDown p; overTimeline := false |}
  | MouseEnter => {| buttonDown := buttonDown p; overTimeline := true |}
  | _ => p
  end.

(** The events one pointer with one button can produce: a press needs the
    button up and a release needs it down; a press or click lands on what
    the pointer is over; the pointer leaves the timeline element only
    from inside and enters it only from outside. *)
Definition physical (p : Pointer) (ev : DomEvent) : bool :=
  match ev with
  | MouseDown t _ =>
      negb (buttonDown p) && Bool.eqb (insideTimeline t) (overTimeline p)
  | Click t _ =>
      negb (buttonDown p) && Bool.eqb (insideTimeline t) (overTimeline p)
  | MouseUp => buttonDown p
  | MouseLeave => overTimeline p
  | MouseEnter => negb (overTimeline p)
  | MouseMove _ | StoreUpdate _ | LayoutChange _ | AutoScrollEffect => true
  end.

Definition step (ps : Pointer * State) (ev : DomEvent) : Pointer * State :=
  (movePointer (fst ps) ev, fst (dispatch (fst ps) ev (snd ps))).

(** Any sequence of events, physical or synthetic. *)
Definition run (evs : list DomEvent) (ps : Pointer * State) : Pointer * State :=
  fold_left step evs ps.

(** The state after the first render. *)
Definition initialState (st : Store) (c : option Container) : State :=
  {| pixelsPerSecond := DEFAULT_PIXELS_PER_SECOND;
     drag := {| draggingItem := None;
                dragOffset := {| Point.x := 0; Point.y := 0 |};
                dragPosition := {| Point.x := 0; Point.y := 0 |} |};
     trim := {| trimmingItem := None; trimSide := None; trimStartX := 0;
                tempTrimValues := None; trimStartItemRef := None |};
     resize := {| isResizing := false; resizeStartY := 0;
                  resizeStartHeight := 0 |};
     store := st;
     tracksRef := c |}.

(** States reached by the events of one pointer. *)
Inductive reachable : Pointer -> State -> Prop :=
| reachable_init (p : Pointer) (st : Store) (c : option Container) :
    buttonDown p = false -> reachable p (initialState st c)
| reachable_step (p : Pointer) (s : State) (ev : DomEvent) :
    reachable p s -> physical p ev = true ->
    reachable (movePointer p ev) (fst (dispatch p ev s)).

(** The number of interaction modes that are on. *)
Definition activeModes (s : State) : nat :=
  (if dragOn s then 1 else 0) + (if trimOn s then 1 else 0)
  + (if resizeOn s then 1 else 0).

Definition idle (s : State) : Prop := activeModes s = 0%nat.
Definition atMostOneMode (s : State) : Prop := (activeModes s <= 1)%nat.

(** Some mode is off in [s] and on in [s']. *)
Definition entersMode (s s' : State) : Prop :=
  (dragOn s = false /\ dragOn s' = true)
  \/ (trimOn s = false /\ trimOn s' = true)
  \/ (resizeOn s = false /\ resizeOn s' = true).

End StoryTrackEditor.

(** Where the browser puts a clip button: the bounding rectangle, as
    [getBoundingClientRect] gives it, of the clip drawn with style [st] in
    the timeline element [c] scrolled down by [scrollTop]. The tracks area
    lies under the time ruler, and the scrolled content moves up and left
    by the scroll offsets. *)
Definition clipRect (c : Container) (scrollTop : number) (st : Style.t)
  : DOMRect.t :=
  {| DOMRect.left := DOMRect.left (boundingRect c) + Style.left st - scrollLeft c;
     DOMRect.top := DOMRect.top (boundingRect c) + TIME_RULER_HEIGHT
                    + Style.top st - scrollTop |}.

(** Is every event of the list one the pointer can produce in its turn? *)
Fixpoint allPhysical (evs : list DomEvent) (p : Pointer) : bool :=
  match evs with
  | [] => true
  | ev :: rest => physical p ev && allPhysical rest (movePointer p ev)
  end.

(** ** Sample data: a story with two clips *)

Module Sample.

Definition storyId : string := "story-1".

(** A 2 s clip at 1200 ms on lane 0. *)
Definition clipA : Item.StoryItemDetail :=
  {| Item.id := "a"; Item.track := 0; Item.start_time_ms := 1200;
     Item.duration := 2; Item.trim_start_ms := None; Item.trim_end_ms := None;
     Item.profile_name := "narrator"; Item.generation_id := "gen-a" |}.

(** A 6 s clip at 2000 ms on lane 1, trimmed to the span 2000..7000 ms. *)
Definition clipB : Item.StoryItemDetail :=
  {| Item.id := "b"; Item.track := 1; Item.start_time_ms := 2000;
     Item.duration := 6; Item.trim_start_ms := Some 400%Z;
     Item.trim_end_ms := Some 600%Z;
     Item.profile_name := "guest"; Item.generation_id := "gen-b" |}.

Definition items : list Item.StoryItemDetail := [clipA; clipB].

(** The timeline element: 800 px wide, its corner at (64, 300). *)
Definition container : Container :=
  {| boundingRect := {| DOMRect.left := 64; DOMRect.top := 300 |};
     scrollLeft := 0; clientWidth := 800 |}.

Definition storeAt (sel : option string) (playing : bool) (t : number) : Store :=
  {| selectedClipId := sel; trackEditorHeight := 200; isPlaying := playing;
     currentTimeMs := t; playbackStoryId := Some storyId |}.

(** Where [clipA] is drawn at 50 px/s: 60 px from the left, second row. *)
Definition rectA : DOMRect.t := {| DOMRect.left := 124; DOMRect.top := 372 |}.

Definition at_ (cx cy : number) : MouseEvent := {| clientX := cx; clientY := cy |}.

Definition pointer0 : Pointer := {| buttonDown := false; overTimeline := true |}.

End Sample.

(** ** The mapper and the zoom step on binary64 numbers *)

(** The same three functions on primitive floats, to compare the exact
    model with what a JavaScript engine computes on concrete inputs. *)
Module Binary64.

Import PrimFloat.
Local Open Scope float_scope.

Definition Math_min (a b : float) : float := if leb a b then a else b.

Definition msToPixels (pixelsPerSecond ms : float) : float :=
  (ms / 1000) * pixelsPerSecond.

Definition pixelsToMs (pixelsPerSecond px : float) : float :=
  (px / pixelsPerSecond) * 1000.

Definition Math_max (a b : float) : float := if leb b a then a else b.

Definition zoomIn (prev : float) : float := Math_min (prev * 1.5) 200.

Definition zoomOut (prev : float) : float := Math_max (prev / 1.5) 10.

End Binary64.

(** ** Predicates on gestures *)

(** The trim invariant of a clip of [durationMs] milliseconds: no negative
    trim, and at least 100 ms left. *)
Definition trimOk (durationMs : number) (v : Trim.Values) : Prop :=
  0 <= Trim.trim_start_ms v
  /\ 0 <= Trim.trim_end_ms v
  /\ Trim.trim_start_ms v + Trim.trim_end_ms v <= durationMs - 100.

(** The committed trim values of a clip, as the editor reads them. *)
Definition committedTrim (it : Item.StoryItemDetail) : Trim.Values :=
  {| Trim.trim_start_ms := orZero (Item.trim_start_ms it);
     Trim.trim_end_ms := orZero (Item.trim_end_ms it) |}.

(** The values a gesture may hold in [tempTrimValues]: computed from the
    captured clip for some pointer delta, and accepted by the guard. *)
Definition accepted (side : Side) (r : TrimStartItem) (v : Trim.Values) : Prop :=
  (exists d : number, v = newTrim side r d)
  /\ Trim.trim_start_ms v + Trim.trim_end_ms v < Item.duration (item r) * 1000 - 100.

(** What holds of the pointer and the state along physical events: at
    most one mode is on, none while the button is up, and a drag only
    with the pointer over the timeline element. *)
Definition modesInv (p : Pointer) (s : State) : Prop :=
  atMostOneMode s
  /\ (buttonDown p = false -> idle s)
  /\ (dragOn s = true -> overTimeline p = true).

(** Provisional trim values are only held while a trim is on. *)
Definition tempOnlyWhileTrimming (s : State) : Prop :=
  trimOn s = false -> tempTrimValues (trim s) = None.

(** [n] applications of a handler. *)
Fixpoint iter {A : Type} (n : nat) (f : A -> A) (a : A) : A :=
  match n with
  | O => a
  | S k => f (iter k f a)
  end.

(** A gesture's pointer moves, fed to a move handler in order. *)
Definition moves (h : MouseEvent -> State -> State) (es : list MouseEvent)
           (s : State) : State :=
  fold_left (fun acc e => h e acc) es s.

(** ** The rest of the component *)

(** A strictly descending list of lanes. *)
Abbreviation descending := (StronglySorted (fun a b : Z => (b < a)%Z)).

(** *** The waveform of a clip ([ClipWaveform]) *)

Module ClipWaveform.

Definition effectiveDurationMs (duration trimStartMs trimEndMs : number) : number :=
  duration * 1000 - trimStartMs - trimEndMs.

Definition fullWaveformWidth (width duration trimStartMs trimEndMs : number) : number :=
  let e := effectiveDurationMs duration trimStartMs trimEndMs in
  if ltb 0 e then (width / e) * (duration * 1000) else width.


(** The effect builds a WaveSurfer unless the element is missing or
    [fullWaveformWidth < 20]. *)
Definition createsWaveSurfer (mounted : bool)
           (width duration trimStartMs trimEndMs : number) : bool :=
  negb (negb mounted
        || ltb (fullWaveformWidth width duration trimStartMs trimEndMs) 20).

End ClipWaveform.

(** *** The extent of the timeline *)

(** [item.start_time_ms + getEffectiveDuration(item)]. *)
Definition clipEnd (it : Item.StoryItemDetail) : number :=
  inject_Z (Item.start_time_ms it) + getEffectiveDuration it.

(** [Math.max(...xs, c)]. *)
Definition Math_max_of (xs : list number) (c : number) : number :=
  fold_right Math_max c xs.

(** The duration the auto-activate effect passes to [setActiveStory], and
    [None] when the effect does nothing (no clips, or the story is active). *)
Definition autoActivate (storyId : string) (items : list Item.StoryItemDetail)
           (s : State) : option number :=
  let isActiveStory := id_eqb (playbackStoryId (store s)) (Some storyId) in
  if (0 <? List.length items)%nat && negb isActiveStory
  then Some (Math_max_of (map clipEnd items) 0)
  else None.

Definition totalDurationMs (items : list Item.StoryItemDetail) : number :=
  if (List.length items =? 0)%nat then 10000
  else Math_max_of (map clipEnd items) 10000.



(** *** Time markers *)

Definition intervalMs (pixelsPerSecond : number) : number :=
  if ltb 100 pixelsPerSecond then 1000
  else if ltb 50 pixelsPerSecond then 2000
  else if ltb pixelsPerSecond 20 then 10000
  else 5000.

(** [for (let ms = start; ms <= limit; ms += step) markers.push(ms)], with
    a bound on the number of iterations; [None] when the bound is hit. *)
Fixpoint markersLoop (fuel : nat) (limit step ms : number) : option (list number) :=
  match fuel with
  | O => None
  | S k =>
      if leb ms limit
      then match markersLoop k limit step (ms + step) with
           | Some l => Some (ms :: l)
           | None => None
           end
      else Some []
  end.

Definition timeMarkers (fuel : nat) (pixelsPerSecond : number)
           (items : list Item.StoryItemDetail) : option (list number) :=
  let step := intervalMs pixelsPerSecond in
  markersLoop fuel (totalDurationMs items + step) step 0.

(** *** Time labels *)

(** The digits of an integer, with a minus sign when it is negative. *)
Definition decimal (n : Z) : string :=
  DecimalString.NilZero.string_of_int (Z.to_int n).

(** [n.toString()], and [n] in a template literal, for an integer. Below
    10^21 in size JavaScript prints all the digits. From 10^21 on it prints
    an exponent form (1e+21); that form is not modelled: [None]. *)
Definition toString (n : Z) : option string :=
  if (Z.abs n <? 10 ^ 21)%Z then Some (decimal n) else None.

Fixpoint repeatChar (c : Ascii.ascii) (n : nat) : string :=
  match n with
  | O => EmptyString
  | S k => String c (repeatChar c k)
  end.

(** [s.padStart(n, c)] for a one-character pad. *)
Definition padStart (n : nat) (c : Ascii.ascii) (s : string) : string :=
  (repeatChar c (n - String.length s) ++ s)%string.

(** The character [0]. *)
Definition zeroChar : Ascii.ascii := Ascii.ascii_of_nat 48.

(** The character of a decimal digit. *)
Definition digitChar (d : Z) : Ascii.ascii := Ascii.ascii_of_nat (48 + Z.to_nat d).

(** [formatTime]; [None] where a number is printed in exponent form. *)
Definition formatTime (ms : number) : option string :=
  let totalSeconds := Math_floor (ms / 1000) in
  let minutes := Math_floor (inject_Z totalSeconds / 60) in
  let seconds := Z.rem totalSeconds 60 in
  match toString minutes, toString seconds with
  | Some m, Some sec => Some (m ++ ":" ++ padStart 2 zeroChar sec)%string
  | _, _ => None
  end.

(** *** Clips in playing order *)

(** [[...items].sort((a, b) => a.start_time_ms - b.start_time_ms)]: the
    sort of an array is stable, so clips with the same start time keep
    their order; an insertion sort that places a clip before the first
    later clip that does not start earlier gives that result. *)
Fixpoint insertByStart (x : Item.StoryItemDetail) (l : list Item.StoryItemDetail)
  : list Item.StoryItemDetail :=
  match l with
  | [] => [x]
  | y :: rest =>
      if (Item.start_time_ms x <=? Item.start_time_ms y)%Z then x :: l
      else y :: insertByStart x rest
  end.

Definition sortedItems (items : list Item.StoryItemDetail)
  : list Item.StoryItemDetail :=
  fold_right insertByStart [] items.

(** Ascending by start time. *)
Definition byStart (a b : Item.StoryItemDetail) : Prop :=
  (Item.start_time_ms a <= Item.start_time_ms b)%Z.

Definition startsAt (t : Z) (it : Item.StoryItemDetail) : bool :=
  (Item.start_time_ms it =? t)%Z.

(** *** Toolbar and keyboard *)

(** What a toolbar or keyboard handler asks of the outside: an effect of
    the pointer handlers, a duplicate or remove request, or a call of the
    playback store. *)
Inductive Command : Type :=
| effect (e : Effect)
| duplicateItem_mutate (storyId itemId : string)
| removeItem_mutate (storyId itemId : string) (onSuccess : State -> State)
| store_play (storyId : string) (items : list Item.StoryItemDetail)
| store_pause
| store_stop.





Section Toolbar.

Variable storyId : string.
Variable items : list Item.StoryItemDetail.

Definition handlePlayPause (s : State) : list Command :=
  if isCurrentlyPlaying storyId s then [store_pause]
  else [store_play storyId (sortedItems items)].

Definition handleStop (s : State) : list Command := [store_stop].





End Toolbar.

(** ** Facts about [Math] *)

Section MathFacts.

Lemma leb_true (a b : number) : leb a b = true <-> a <= b.
Proof. unfold leb. apply Qle_bool_iff. Qed.

Lemma leb_false (a b : number) : leb a b = false <-> b < a.
Proof.
  unfold leb. split; intro H.
  - apply Qnot_le_lt. intro C. apply Qle_bool_iff in C. congruence.
  - destruct (Qle_bool a b) eqn:E; [|reflexivity].
    apply Qle_bool_iff in E. lra.
Qed.

Lemma ltb_true (a b : number) : ltb a b = true <-> a < b.
Proof.
  unfold ltb. rewrite negb_true_iff. apply (leb_false b a).
Qed.

Lemma ltb_false (a b : number) : ltb a b = false <-> b <= a.
Proof.
  unfold ltb. rewrite negb_false_iff. apply (leb_true b a).
Qed.

Lemma Math_max_spec (a b : number) :
  (a <= b /\ Math_max a b = b) \/ (b < a /\ Math_max a b = a).
Proof.
  unfold Math_max. destruct (leb a b) eqn:E.
  - left. split; [now apply leb_true | reflexivity].
  - right. split; [now apply leb_false | reflexivity].
Qed.

Lemma Math_min_spec (a b : number) :
  (a <= b /\ Math_min a b = a) \/ (b < a /\ Math_min a b = b).
Proof.
  unfold Math_min. destruct (leb a b) eqn:E.
  - left. split; [now apply leb_true | reflexivity].
  - right. split; [now apply leb_false | reflexivity].
Qed.

Lemma Math_round_integer (x : number) : is_integer (Math_round x).
Proof. exists (Qfloor (x + (1 # 2))). reflexivity. Qed.

Lemma Math_round_nonneg (x : number) : 0 <= x -> 0 <= Math_round x.
Proof.
  intro H. unfold Math_round.
  change 0 with (inject_Z 0). rewrite <- Zle_Qle.
  apply Qfloor_resp_le with (x := 0) in H as H0. simpl in H0.
  assert (Hm : 0 <= x + (1 # 2)) by lra.
  apply Qfloor_resp_le in Hm. simpl in Hm. exact Hm.
Qed.

Lemma Math_round_of_Z (k : Z) : Math_round (inject_Z k) = inject_Z k.
Proof.
  unfold Math_round.
  assert (Hlo : inject_Z k <= inject_Z k + (1 # 2)) by lra.
  assert (Hhi : inject_Z k + (1 # 2) < inject_Z (k + 1)).
  { rewrite inject_Z_plus. change (inject_Z 1) with 1. lra. }
  pose proof (Qfloor_le (inject_Z k + (1 # 2))) as F1.
  pose proof (Qlt_floor (inject_Z k + (1 # 2))) as F2.
  rewrite inject_Z_plus in F2. change (inject_Z 1) with 1 in F2.
  rewrite inject_Z_plus in Hhi. change (inject_Z 1) with 1 in Hhi.
  assert (A : (Qfloor (inject_Z k + (1 # 2)) <= k)%Z).
  { apply Z.lt_succ_r. rewrite Zlt_Qlt. unfold Z.succ.
    rewrite inject_Z_plus. change (inject_Z 1) with 1. lra. }
  assert (B : (k <= Qfloor (inject_Z k + (1 # 2)))%Z).
  { apply Z.lt_succ_r. rewrite Zlt_Qlt. unfold Z.succ.
    rewrite inject_Z_plus. change (inject_Z 1) with 1. lra. }
  assert (E : Qfloor (inject_Z k + (1 # 2)) = k) by lia.
  rewrite E. reflexivity.
Qed.

End MathFacts.

(** ** Time/pixel mapper and zoom *)

Section Zoom.

Lemma zoomIn_cases (p : number) :
  (p * (3 # 2) <= 200 /\ zoomIn p = p * (3 # 2))
  \/ (200 < p * (3 # 2) /\ zoomIn p = 200).
Proof.
  unfold zoomIn, MAX_PIXELS_PER_SECOND.
  destruct (Math_min_spec (p * (3 # 2)) 200) as [[H E] | [H E]]; rewrite E; auto.
Qed.

Lemma zoomOut_cases (p : number) :
  (p / (3 # 2) <= 10 /\ zoomOut p = 10)
  \/ (10 < p / (3 # 2) /\ zoomOut p = p / (3 # 2)).
Proof.
  unfold zoomOut, MIN_PIXELS_PER_SECOND.
  destruct (Math_max_spec (p / (3 # 2)) 10) as [[H E] | [H E]]; rewrite E; auto.
Qed.

(** The zoom range is kept by both steps. *)
Lemma zoom_range (p : number) :
  10 <= p <= 200 ->
  10 <= zoomIn p <= 200 /\ 10 <= zoomOut p <= 200.
Proof.
  intros [Hlo Hhi].
  assert (D : p / (3 # 2) == p * (2 # 3)) by (field).
  destruct (zoomIn_cases p) as [[H E] | [H E]];
    destruct (zoomOut_cases p) as [[H' E'] | [H' E']];
    rewrite E, E'; repeat split; lra.
Qed.

(** C5: a zoom-in step sets [pixelsPerSecond] to [prev * 1.5] unless that
    exceeds 200, and then to 200; a zoom-out step sets it to [prev / 1.5]
    unless that is below 10, and then to 10. From the default 50 the
    first three zoom-in steps are not clamped and give 75, 112.5 and
    168.75; the fourth would give 253.125 and is clamped to 200. *)
Theorem zoom_step_and_clamp :
  (forall s : State,
      pixelsPerSecond (handleZoomIn s)
      = Math_min (pixelsPerSecond s * (3 # 2)) 200
      /\ pixelsPerSecond (handleZoomIn s) <= 200
      /\ (pixelsPerSecond s * (3 # 2) <= 200 ->
          pixelsPerSecond (handleZoomIn s) = pixelsPerSecond s * (3 # 2)))
  /\ (forall s : State,
      pixelsPerSecond (handleZoomOut s)
      = Math_max (pixelsPerSecond s / (3 # 2)) 10
      /\ 10 <= pixelsPerSecond (handleZoomOut s)
      /\ (10 <= pixelsPerSecond s / (3 # 2) ->
          pixelsPerSecond (handleZoomOut s) == pixelsPerSecond s / (3 # 2)))
  /\ (forall (st : Store) (c : option Container),
      let s0 := initialState st c in
      pixelsPerSecond s0 == 50
      /\ pixelsPerSecond (iter 1 handleZoomIn s0) == 75
      /\ pixelsPerSecond (iter 2 handleZoomIn s0) == 225 # 2
      /\ pixelsPerSecond (iter 3 handleZoomIn s0) == 675 # 4
      /\ pixelsPerSecond (iter 3 handleZoomIn s0) < 200
      /\ 200 < pixelsPerSecond (iter 3 handleZoomIn s0) * (3 # 2)
      /\ pixelsPerSecond (iter 4 handleZoomIn s0) == 200).
Proof.
  split; [|split].
  - intro s. unfold handleZoomIn. simpl.
    split; [reflexivity|].
    destruct (zoomIn_cases (pixelsPerSecond s)) as [[H E] | [H E]];
      rewrite E; split; try lra; intro; try reflexivity; lra.
  - intro s. unfold handleZoomOut. simpl.
    split; [reflexivity|].
    destruct (zoomOut_cases (pixelsPerSecond s)) as [[H E] | [H E]];
      rewrite E; split; try lra; intro; try reflexivity; lra.
  - intros st c s0. subst s0. cbn.
    repeat split; vm_compute; reflexivity || discriminate.
Qed.

(** C6: in exact arithmetic, for any number [x] and any
    [pixelsPerSecond] of the zoom range 10..200, [pixelsToMs] undoes
    [msToPixels] and [msToPixels] undoes [pixelsToMs]. *)
Theorem pixelsToMs_msToPixels (pps x : number) :
  10 <= pps <= 200 ->
  pixelsToMs pps (msToPixels pps x) == x
  /\ msToPixels pps (pixelsToMs pps x) == x.
Proof.
  intros [Hlo Hhi]. unfold pixelsToMs, msToPixels.
  split; field; intro C; rewrite C in Hlo; lra.
Qed.

Lemma pixelsToMs_msToPixels_witness :
  10 <= DEFAULT_PIXELS_PER_SECOND <= 200
  /\ pixelsToMs DEFAULT_PIXELS_PER_SECOND (msToPixels DEFAULT_PIXELS_PER_SECOND 1234)
     == 1234.
Proof.
  assert (R : 10 <= DEFAULT_PIXELS_PER_SECOND <= 200)
    by (unfold DEFAULT_PIXELS_PER_SECOND; lra).
  split; [exact R|].
  exact (proj1 (pixelsToMs_msToPixels DEFAULT_PIXELS_PER_SECOND 1234 R)).
Defined.

End Zoom.

Module Binary64Facts.

Import PrimFloat.
Local Open Scope float_scope.

(** On binary64 numbers the three zoom-in steps from 50 are exact as well,
    and the fourth is clamped. *)
Example zoom_steps_binary64 :
  eqb (iter 3 Binary64.zoomIn 50) 168.75 = true
  /\ ltb 200 (iter 3 Binary64.zoomIn 50 * 1.5) = true
  /\ eqb (iter 4 Binary64.zoomIn 50) 200 = true.
Proof. repeat split; vm_compute; reflexivity. Qed.

(** On binary64 numbers the round trip is only approximate: at 50 px/s,
    7 ms comes back as the next float above 7. *)
Example round_trip_binary64 :
  eqb (Binary64.pixelsToMs 50 (Binary64.msToPixels 50 7)) 7 = false
  /\ eqb (Binary64.pixelsToMs 50 (Binary64.msToPixels 50 7)) (next_up 7) = true.
Proof. split; vm_compute; reflexivity. Qed.

(** On binary64 numbers a zoom-out and a zoom-in from 50 come back to 50,
    but not from every level: four steps in and five steps out of 50 lead
    to 26.337448559670786 (0x1.a5663075fde4bp+4), and from there a step
    out and a step in give the next float above. *)
Example zoom_undo_binary64 :
  let p := iter 5 Binary64.zoomOut (iter 4 Binary64.zoomIn 50) in
  eqb (Binary64.zoomOut (Binary64.zoomIn 50)) 50 = true
  /\ eqb (Binary64.zoomIn (Binary64.zoomOut 50)) 50 = true
  /\ eqb p 0x1.a5663075fde4bp+4 = true
  /\ eqb (Binary64.zoomIn (Binary64.zoomOut p)) p = false
  /\ eqb (Binary64.zoomIn (Binary64.zoomOut p)) (next_up p) = true.
Proof. repeat split; vm_compute; reflexivity. Qed.

End Binary64Facts.

(** ** Panel resize *)

Section Resize.

Lemma resizedHeight_range (h0 y0 y : number) :
  120 <= resizedHeight h0 y0 y <= 500.
Proof.
  unfold resizedHeight, MAX_EDITOR_HEIGHT, MIN_EDITOR_HEIGHT.
  destruct (Math_max_spec 120 (h0 + (y0 - y))) as [[H E] | [H E]]; rewrite E;
    match goal with
    | |- _ <= Math_min ?a ?b <= _ =>
        destruct (Math_min_spec a b) as [[H' E'] | [H' E']]; rewrite E'
    end; lra.
Qed.

Lemma resizedHeight_cases (h0 y0 y : number) :
  let raw := h0 + (y0 - y) in
  (raw < 120 /\ resizedHeight h0 y0 y = 120)
  \/ (120 <= raw < 500 /\ resizedHeight h0 y0 y = raw)
  \/ (500 <= raw /\ resizedHeight h0 y0 y = 500).
Proof.
  unfold resizedHeight, MAX_EDITOR_HEIGHT, MIN_EDITOR_HEIGHT. cbv zeta.
  destruct (Math_max_spec 120 (h0 + (y0 - y))) as [[H E] | [H E]]; rewrite E;
    match goal with
    | |- context [Math_min ?a ?b] =>
        destruct (Math_min_spec a b) as [[H' E'] | [H' E']]; rewrite E'
    end.
  - right. right. split; [lra | reflexivity].
  - right. left. split; [lra | reflexivity].
  - exfalso. lra.
  - left. split; [lra | reflexivity].
Qed.

Lemma resizedHeight_antitone (h0 y0 y y' : number) :
  y <= y' -> resizedHeight h0 y0 y' <= resizedHeight h0 y0 y.
Proof.
  intro L.
  destruct (resizedHeight_cases h0 y0 y) as [[H E] | [[H E] | [H E]]];
    destruct (resizedHeight_cases h0 y0 y') as [[H' E'] | [[H' E'] | [H' E']]];
    rewrite E, E'; lra.
Qed.

(** The moves of a resize gesture leave the gesture's origin in place. *)
Lemma resize_moves_keep (es : list MouseEvent) (s : State) :
  resize (moves handleResizeMove es s) = resize s.
Proof.
  revert s. induction es as [|e es IH]; intro s; [reflexivity|].
  unfold moves in *. simpl. rewrite IH.
  unfold handleResizeMove. destruct (isResizing (resize s)); reflexivity.
Qed.

(** C7: after the press [e0] of a resize gesture and any pointer moves,
    the move to [e] sets the editor height to
    [startHeight + (startY - e.clientY)] clamped to 120..500: it is that
    sum when the sum is in range, 120 below and 500 above; so the
    height stays in 120..500, and a pointer further down never gives a
    larger height (the axis is inverted). *)
Theorem resize_sets_clamped_height
        (s0 : State) (e0 : MouseEvent) (es : list MouseEvent) (e : MouseEvent) :
  let h := fun ev =>
    editorHeight
      (handleResizeMove ev (moves handleResizeMove es (handleResizeStart e0 s0))) in
  let raw := editorHeight s0 + (clientY e0 - clientY e) in
  h e = Math_min 500 (Math_max 120 raw)
  /\ 120 <= h e <= 500
  /\ ((raw < 120 /\ h e = 120)
      \/ (120 <= raw < 500 /\ h e = raw)
      \/ (500 <= raw /\ h e = 500))
  /\ (forall e' : MouseEvent, clientY e <= clientY e' -> h e' <= h e).
Proof.
  intros h raw.
  assert (Hh : forall ev, h ev = resizedHeight (editorHeight s0) (clientY e0) (clientY ev)).
  { intro ev. unfold h, handleResizeMove.
    rewrite resize_moves_keep. reflexivity. }
  rewrite Hh. repeat split.
  - apply resizedHeight_range.
  - apply resizedHeight_range.
  - apply resizedHeight_cases.
  - intros e' L. rewrite (Hh e'). now apply resizedHeight_antitone.
Qed.

End Resize.

(** ** Auto-scroll *)

Section AutoScroll.

Variable storyId : string.

(** C8: while this story plays and the timeline element is mounted, a run
    of the auto-scroll effect leaves [scrollLeft] as it is when the
    playhead is at or left of the middle of the viewport, and otherwise
    assigns [playheadLeft - clientWidth / 2]; in both cases the new
    [scrollLeft] is not smaller than the old one. *)
Theorem autoScroll_never_left (s : State) (c : Container) :
  isCurrentlyPlaying storyId s = true ->
  tracksRef s = Some c ->
  let halfwayPoint := scrollLeft c + clientWidth c / 2 in
  exists c' : Container,
    tracksRef (autoScroll storyId s) = Some c'
    /\ clientWidth c' = clientWidth c
    /\ (playheadLeft s <= halfwayPoint -> autoScroll storyId s = s /\ c' = c)
    /\ (halfwayPoint < playheadLeft s ->
        scrollLeft c' = playheadLeft s - clientWidth c / 2)
    /\ scrollLeft c <= scrollLeft c'.
Proof.
  intros P R halfwayPoint. unfold autoScroll. rewrite P, R.
  fold halfwayPoint.
  destruct (ltb halfwayPoint (playheadLeft s)) eqn:E.
  - apply ltb_true in E.
    eexists. split; [reflexivity|]. simpl.
    repeat split; intros; try reflexivity; try lra.
    unfold halfwayPoint in E. lra.
  - apply ltb_false in E.
    exists c. repeat split; auto; intros; try lra.
Qed.

End AutoScroll.

Lemma autoScroll_never_left_witness :
  let s := initialState (Sample.storeAt None true 10000) (Some Sample.container) in
  isCurrentlyPlaying Sample.storyId s = true
  /\ exists c' : Container,
      tracksRef (autoScroll Sample.storyId s) = Some c' /\ scrollLeft c' == 100.
Proof.
  intro s.
  assert (P : isCurrentlyPlaying Sample.storyId s = true) by reflexivity.
  split; [exact P|].
  destruct (autoScroll_never_left Sample.storyId s Sample.container P eq_refl)
    as [c' [R [_ [_ [Hr _]]]]].
  exists c'. split; [exact R|].
  rewrite Hr; vm_compute; reflexivity.
Defined.

(** ** Rendering a story without clips *)

Section Render.

Variable storyId : string.

(** C10: the component returns [null] exactly when the clip list is
    empty; with no clips there is no toolbar, no playback control and no
    timeline, whatever the state. *)
Theorem render_null_iff_no_items (items : list Item.StoryItemDetail) (s : State) :
  render storyId [] s = None
  /\ (render storyId items s = None <-> items = []).
Proof.
  split; [reflexivity|].
  unfold render. destruct items as [|it rest]; simpl.
  - split; reflexivity.
  - split; discriminate.
Qed.

End Render.

(** ** Split at the playhead *)

Section Split.

Variable storyId : string.
Variable items : list Item.StoryItemDetail.



End Split.


(** ** The track list *)

Section Tracks.

Lemma In_insert_desc (x y : Z) (l : list Z) :
  In y (insert_desc x l) <-> y = x \/ In y l.
Proof.
  induction l as [|z l IH]; simpl.
  - intuition congruence.
  - destruct (z <=? x)%Z; simpl; [intuition congruence|].
    rewrite IH. intuition congruence.
Qed.

Lemma In_sort_desc (y : Z) (l : list Z) : In y (sort_desc l) <-> In y l.
Proof.
  induction l as [|x l IH]; simpl; [reflexivity|].
  rewrite In_insert_desc, IH. intuition congruence.
Qed.

Lemma existsb_eqb_In (x : Z) (l : list Z) :
  existsb (Z.eqb x) l = true <-> In x l.
Proof.
  rewrite existsb_exists. split.
  - intros [y [Hy E]]. apply Z.eqb_eq in E. now subst.
  - intro H. exists x. split; [exact H | apply Z.eqb_refl].
Qed.

Lemma In_Set_from (y : Z) (xs seen : list Z) :
  In y (Set_from seen xs) <-> In y xs /\ ~ In y seen.
Proof.
  revert seen. induction xs as [|x xs IH]; intro seen; simpl.
  - tauto.
  - destruct (existsb (Z.eqb x) seen) eqn:E.
    + apply existsb_eqb_In in E. rewrite IH.
      split; [tauto|]. intros [[->|H] N]; tauto.
    + assert (N : ~ In x seen).
      { intro C. apply existsb_eqb_In in C. congruence. }
      simpl. rewrite IH. simpl.
      destruct (Z.eq_dec x y) as [->|D]; tauto.
Qed.

Lemma In_tracksOf (items : list Item.StoryItemDetail) (y : Z) :
  In y (tracksOf items) <-> In y DEFAULT_TRACKS \/ In y (map Item.track items).
Proof.
  unfold tracksOf. rewrite In_sort_desc, In_Set_from, in_app_iff. simpl. tauto.
Qed.

Lemma tracksOf_nonempty (items : list Item.StoryItemDetail) :
  (3 <= List.length (tracksOf items))%nat.
Proof.
  assert (H1 : In 1%Z (tracksOf items)) by (apply In_tracksOf; simpl; tauto).
  assert (H0 : In 0%Z (tracksOf items)) by (apply In_tracksOf; simpl; tauto).
  assert (Hm : In (-1)%Z (tracksOf items)) by (apply In_tracksOf; simpl; tauto).
  destruct (tracksOf items) as [|a [|b [|c l]]]; simpl in *; lia.
Qed.

Lemma indexOf_In (l : list Z) (x : Z) :
  In x l ->
  (0 <= indexOf l x < Z.of_nat (List.length l))%Z
  /\ nth (Z.to_nat (indexOf l x)) l 0%Z = x.
Proof.
  induction l as [|y l IH]; simpl; [tauto|].
  intros H. destruct (y =? x)%Z eqn:E.
  - apply Z.eqb_eq in E. subst. split; [lia | reflexivity].
  - assert (Hin : In x l).
    { destruct H as [->|H]; [rewrite Z.eqb_refl in E; discriminate | exact H]. }
    destruct (IH Hin) as [[Hlo Hhi] Hn].
    destruct (indexOf l x <? 0)%Z eqn:L; [apply Z.ltb_lt in L; lia|].
    split; [lia|].
    replace (Z.to_nat (indexOf l x + 1)) with (S (Z.to_nat (indexOf l x))) by lia.
    exact Hn.
Qed.

Lemma newTrack_In (items : list Item.StoryItemDetail) (s : State) :
  In (newTrack items s) (tracksOf items).
Proof.
  unfold newTrack, tracks. apply nth_In.
  pose proof (tracksOf_nonempty items). lia.
Qed.

Lemma findItem_In (items : list Item.StoryItemDetail) (o : option string)
      (it : Item.StoryItemDetail) :
  findItem items o = Some it -> In it items /\ o = Some (Item.id it).
Proof.
  destruct o as [i|]; simpl; [|discriminate].
  intro F. apply find_some in F. destruct F as [Hin E].
  apply String.eqb_eq in E. subst. auto.
Qed.

Lemma eqb_true (a b : number) : eqb a b = true <-> a == b.
Proof. unfold eqb. apply Qeq_bool_iff. Qed.

Lemma eqb_false (a b : number) : eqb a b = false <-> ~ a == b.
Proof.
  split.
  - intros E C. apply eqb_true in C. congruence.
  - intro N. destruct (eqb a b) eqn:E; [|reflexivity].
    apply eqb_true in E. contradiction.
Qed.

Lemma Math_round_comp (a b : number) : a == b -> Math_round a = Math_round b.
Proof.
  intro E. unfold Math_round. f_equal. apply Qfloor_comp. now rewrite E.
Qed.

Lemma newTimeMs_integer (s : State) : is_integer (newTimeMs s) /\ 0 <= newTimeMs s.
Proof.
  unfold newTimeMs, Math_round.
  match goal with |- context [inject_Z ?k] => generalize k end.
  intro k. destruct (Math_max_spec 0 (inject_Z k)) as [[H E] | [H E]]; rewrite E.
  - split; [exists k; reflexivity | exact H].
  - split; [exists 0%Z; reflexivity | lra].
Qed.

End Tracks.

(** ** Releasing a drag *)

Section Drag.

Variable storyId : string.
Variable items : list Item.StoryItemDetail.

(** A clip released where it is drawn keeps its start time and its lane. *)
Lemma release_where_drawn (s : State) (it : Item.StoryItemDetail) :
  In it items ->
  (0 <= Item.start_time_ms it)%Z ->
  0 < pixelsPerSecond s ->
  Point.x (dragPosition (drag s))
  == msToPixels (pixelsPerSecond s) (inject_Z (Item.start_time_ms it)) ->
  Point.y (dragPosition (drag s))
  == inject_Z (getTrackIndex items (Item.track it)) * TRACK_HEIGHT ->
  newTimeMs s = inject_Z (Item.start_time_ms it)
  /\ newTrack items s = Item.track it.
Proof.
  intros Hin Hst Hpps Hx Hy. split.
  - unfold newTimeMs.
    rewrite (Math_round_comp _ (inject_Z (Item.start_time_ms it))).
    + rewrite Math_round_of_Z.
      destruct (Math_max_spec 0 (inject_Z (Item.start_time_ms it)))
        as [[_ E] | [H _]]; [exact E|].
      exfalso. change 0 with (inject_Z 0) in H. rewrite <- Zlt_Qlt in H. lia.
    + unfold pixelsToMs. rewrite Hx. unfold msToPixels. field. lra.
  - assert (Ht : In (Item.track it) (tracksOf items)).
    { apply In_tracksOf. right. now apply in_map. }
    destruct (indexOf_In _ _ Ht) as [[Hlo Hhi] Hn].
    unfold newTrack, tracks, Math_floor.
    assert (F : Qfloor (Point.y (dragPosition (drag s)) / TRACK_HEIGHT)
                = getTrackIndex items (Item.track it)).
    { rewrite <- (Qfloor_Z (getTrackIndex items (Item.track it))).
      apply Qfloor_comp. rewrite Hy. unfold TRACK_HEIGHT. field. }
    rewrite F. unfold getTrackIndex, tracks in *.
    replace (Z.max 0 (Z.min (indexOf (tracksOf items) (Item.track it))
                            (Z.of_nat (List.length (tracksOf items)) - 1)))
      with (indexOf (tracksOf items) (Item.track it)) by lia.
    exact Hn.
Qed.

(** What every release does: it ends the drag of a clip of the story; it
    issues one move request, carrying the new start time and lane, when
    that pair differs from the clip's committed pair, and no effect at all
    when the pair is the committed one. A clip is not moved when
    [dragPosition] is the place where it is drawn (at
    [msToPixels start_time_ms], on the row of its lane); that the press
    leaves [dragPosition] there is true of an unscrolled timeline only
    ([press_position_under_scroll]). *)
Theorem drag_release_moves_iff_changed
        (s : State) (c : Container) (it : Item.StoryItemDetail) :
  truthy (draggingItem (drag s)) = true ->
  tracksRef s = Some c ->
  findItem items (draggingItem (drag s)) = Some it ->
  let unchanged :=
    newTimeMs s == inject_Z (Item.start_time_ms it)
    /\ newTrack items s = Item.track it in
  let effects := snd (handleDragEnd storyId items s) in
  draggingItem (drag (fst (handleDragEnd storyId items s))) = None
  /\ (~ unchanged ->
      effects = [moveItem_mutate storyId (Item.id it) (newTimeMs s)
                                 (newTrack items s)])
  /\ (unchanged -> effects = [])
  /\ ((0 <= Item.start_time_ms it)%Z ->
      0 < pixelsPerSecond s ->
      Point.x (dragPosition (drag s))
      == msToPixels (pixelsPerSecond s) (inject_Z (Item.start_time_ms it)) ->
      Point.y (dragPosition (drag s))
      == inject_Z (getTrackIndex items (Item.track it)) * TRACK_HEIGHT ->
      effects = []).
Proof.
  intros T R F unchanged effects.
  assert (Eff : effects
                = if negb (eqb (newTimeMs s) (inject_Z (Item.start_time_ms it)))
                     || negb (Z.eqb (newTrack items s) (Item.track it))
                  then [moveItem_mutate storyId (Item.id it) (newTimeMs s)
                                        (newTrack items s)]
                  else []).
  { unfold effects, handleDragEnd. rewrite T, R, F. reflexivity. }
  assert (Same : unchanged -> effects = []).
  { intros [U1 U2]. rewrite Eff.
    apply eqb_true in U1. rewrite U1. rewrite U2, Z.eqb_refl. reflexivity. }
  split; [|split; [|split]].
  - unfold handleDragEnd. rewrite T, R, F. reflexivity.
  - intro N. rewrite Eff.
    destruct (eqb (newTimeMs s) (inject_Z (Item.start_time_ms it))) eqn:E1;
      [|reflexivity].
    destruct (Z.eqb (newTrack items s) (Item.track it)) eqn:E2; [|reflexivity].
    exfalso. apply N. split; [now apply eqb_true | now apply Z.eqb_eq].
  - exact Same.
  - intros Hst Hpps Hx Hy. apply Same.
    destruct (findItem_In _ _ _ F) as [Hin _].
    destruct (release_where_drawn s it Hin Hst Hpps Hx Hy) as [A B].
    split; [rewrite A; reflexivity | exact B].
Qed.

End Drag.

(** The clip at (1200 ms, lane 0), pressed at (130, 380) and dragged to
    (320, 432), is released at (5000 ms, lane -1): one move request with
    these values. Pressed and released without a move, nothing is sent. *)
Lemma drag_release_moves_iff_changed_witness :
  let s0 := initialState (Sample.storeAt None false 0) (Some Sample.container) in
  let pressed := handleDragStart (Sample.at_ 130 380) Sample.rectA Sample.clipA s0 in
  let dragged := handleDragMove (Sample.at_ 320 432) pressed in
  snd (handleDragEnd Sample.storyId Sample.items dragged)
  = [moveItem_mutate Sample.storyId "a" 5000 (-1)]
  /\ snd (handleDragEnd Sample.storyId Sample.items pressed) = [].
Proof.
  intros s0 pressed dragged. split.
  - destruct (drag_release_moves_iff_changed Sample.storyId Sample.items dragged
                Sample.container Sample.clipA eq_refl eq_refl eq_refl)
      as [_ [H _]].
    rewrite H.
    + vm_compute. reflexivity.
    + intros [_ C]. vm_compute in C. discriminate.
  - destruct (drag_release_moves_iff_changed Sample.storyId Sample.items pressed
                Sample.container Sample.clipA eq_refl eq_refl eq_refl)
      as [_ [_ [_ H]]].
    apply H.
    + vm_compute. discriminate.
    + vm_compute. reflexivity.
    + vm_compute. reflexivity.
    + vm_compute. reflexivity.
Defined.

(** The press reads the clip's place from the screen. The horizontal scroll
    offset is added back, so that [dragPosition.x] is the place where the
    clip is drawn; the vertical one is not, so that [dragPosition.y] is too
    small by [scrollTop]. *)
Lemma press_position_under_scroll
      (e : MouseEvent) (c : Container) (scrollTop : number) (st : Style.t)
      (it : Item.StoryItemDetail) (s : State) :
  tracksRef s = Some c ->
  let p := dragPosition (drag (handleDragStart e (clipRect c scrollTop st) it s)) in
  Point.x p == Style.left st /\ Point.y p == Style.top st - scrollTop.
Proof.
  intros R p. unfold p, handleDragStart, clipRect. rewrite R. simpl.
  split; ring.
Qed.

(** C3: a clip released at the place where it was pressed is moved when the
    timeline is scrolled down. [handleDragStart] and [handleDragMove] add
    [scrollLeft] to the horizontal position and nothing to the vertical
    one, so the row is counted from the top of the visible part. The panel
    of the sample is at its smallest height, 120 px: 80 px of it show the
    ruler and the three rows (lanes 1, 0 and -1), which are 168 px high, so
    the timeline scrolls down by up to 88 px. Clip a (1200 ms, lane 0, drawn on the second row)
    is pressed 6 px right of and 8 px below its corner and released there,
    without a move or after a move event at the same place. With the
    timeline unscrolled, or scrolled sideways by 40 px, nothing is sent;
    scrolled down by 30 px, a request moves the clip to lane 1. *)
Theorem drag_release_in_scrolled_timeline :
  let editor (c : Container) :=
    setEditorHeight 120 (initialState (Sample.storeAt None false 0) (Some c)) in
  let gesture (c : Container) (scrollTop : number) (moved : bool) :=
    let rect :=
      clipRect c scrollTop
               (style (renderClip Sample.items (editor c) Sample.clipA)) in
    let e := Sample.at_ (DOMRect.left rect + 6) (DOMRect.top rect + 8) in
    let pressed := handleDragStart e rect Sample.clipA (editor c) in
    snd (handleDragEnd Sample.storyId Sample.items
           (if moved then handleDragMove e pressed else pressed)) in
  let sideways :=
    {| boundingRect := boundingRect Sample.container;
       scrollLeft := 40; clientWidth := clientWidth Sample.container |} in
  (exists v : View,
      render Sample.storyId Sample.items (editor Sample.container) = Some v
      /\ TIME_RULER_HEIGHT + tracksAreaHeight v - timelineContainerHeight v == 88)
  /\ gesture Sample.container 0 false = []
  /\ gesture Sample.container 0 true = []
  /\ gesture sideways 0 false = []
  /\ gesture sideways 0 true = []
  /\ gesture Sample.container 30 false
     = [moveItem_mutate Sample.storyId "a" 1200 1]
  /\ gesture Sample.container 30 true
     = [moveItem_mutate Sample.storyId "a" 1200 1].
Proof.
  intros editor gesture sideways.
  split; [eexists; split; [reflexivity | vm_compute; reflexivity]|].
  split; [|split; [|split; [|split; [|split]]]]; vm_compute; reflexivity.
Qed.

(** ** Trim gestures *)

Section TrimGesture.

Variable storyId : string.
Variable items : list Item.StoryItemDetail.

Lemma orZero_integer (o : option Z) : is_integer (orZero o).
Proof. destruct o as [z|]; [exists z | exists 0%Z]; reflexivity. Qed.

Lemma Math_round_integer_id (x : number) : is_integer x -> Math_round x == x.
Proof.
  intros [k E]. rewrite (Math_round_comp x (inject_Z k) E), Math_round_of_Z.
  now rewrite E.
Qed.

Lemma Math_round_max0_nonneg (x : number) : 0 <= Math_round (Math_max 0 x).
Proof.
  apply Math_round_nonneg.
  destruct (Math_max_spec 0 x) as [[H E] | [H E]]; rewrite E; lra.
Qed.

(** What [handleTrimMove] computes keeps the untouched side, and gives a
    non-negative integer on the touched side. *)
Lemma newTrim_sides (side : Side) (r : TrimStartItem) (d : number) :
  let v := newTrim side r d in
  (0 <= initialTrimStart r -> 0 <= Trim.trim_start_ms v)
  /\ (0 <= initialTrimEnd r -> 0 <= Trim.trim_end_ms v)
  /\ (is_integer (initialTrimStart r) -> is_integer (Trim.trim_start_ms v))
  /\ (is_integer (initialTrimEnd r) -> is_integer (Trim.trim_end_ms v)).
Proof.
  destruct side; simpl; repeat split; intros; auto;
    solve [apply Math_round_max0_nonneg | apply Math_round_integer].
Qed.

Lemma handleTrimMove_inv (side : Side) (r : TrimStartItem) (e : MouseEvent) (s : State) :
  trimStartItemRef (trim s) = Some r ->
  trimSide (trim s) = Some side ->
  (forall v, tempTrimValues (trim s) = Some v -> accepted side r v) ->
  trimStartItemRef (trim (handleTrimMove e s)) = Some r
  /\ trimSide (trim (handleTrimMove e s)) = Some side
  /\ trimmingItem (trim (handleTrimMove e s)) = trimmingItem (trim s)
  /\ (forall v, tempTrimValues (trim (handleTrimMove e s)) = Some v -> accepted side r v).
Proof.
  intros R S A. unfold handleTrimMove. rewrite R, S.
  destruct (truthy (trimmingItem (trim s))); [|auto].
  match goal with |- context [leb ?a ?b] => destruct (leb a b) eqn:G end; [auto|].
  apply leb_false in G. simpl.
  split; [exact R|]. split; [exact S|]. split; [reflexivity|].
  intros w E. injection E as <-. split; [eexists; reflexivity | exact G].
Qed.

Lemma trim_moves_inv (side : Side) (r : TrimStartItem) (es : list MouseEvent) (s : State) :
  trimStartItemRef (trim s) = Some r ->
  trimSide (trim s) = Some side ->
  (forall v, tempTrimValues (trim s) = Some v -> accepted side r v) ->
  let s' := moves handleTrimMove es s in
  trimStartItemRef (trim s') = Some r
  /\ trimSide (trim s') = Some side
  /\ trimmingItem (trim s') = trimmingItem (trim s)
  /\ (forall v, tempTrimValues (trim s') = Some v -> accepted side r v).
Proof.
  revert s. induction es as [|e es IH]; intros s R S A; simpl; [auto|].
  destruct (handleTrimMove_inv side r e s R S A) as [R' [S' [I' A']]].
  destruct (IH _ R' S' A') as [R2 [S2 [I2 A2]]].
  unfold moves in *. simpl. rewrite I2, I'. auto.
Qed.

(** The state of a gesture: press on a handle of [it], then the moves. *)
Lemma trim_gesture_state
      (s0 : State) (c : Container) (e0 : MouseEvent) (it : Item.StoryItemDetail)
      (side : Side) (es : list MouseEvent) :
  tracksRef s0 = Some c ->
  tempTrimValues (trim s0) = None ->
  let r := {| item := it;
              initialTrimStart := orZero (Item.trim_start_ms it);
              initialTrimEnd := orZero (Item.trim_end_ms it) |} in
  let s := moves handleTrimMove es (handleTrimStart e0 it side s0) in
  trimStartItemRef (trim s) = Some r
  /\ trimSide (trim s) = Some side
  /\ trimmingItem (trim s) = Some (Item.id it)
  /\ (forall v, tempTrimValues (trim s) = Some v -> accepted side r v).
Proof.
  intros R T r s.
  assert (P : trimStartItemRef (trim (handleTrimStart e0 it side s0)) = Some r
              /\ trimSide (trim (handleTrimStart e0 it side s0)) = Some side
              /\ trimmingItem (trim (handleTrimStart e0 it side s0)) = Some (Item.id it)
              /\ tempTrimValues (trim (handleTrimStart e0 it side s0)) = None).
  { unfold handleTrimStart. rewrite R. simpl. auto. }
  destruct P as [P1 [P2 [P3 P4]]].
  destruct (trim_moves_inv side r es _ P1 P2) as [Q1 [Q2 [Q3 Q4]]].
  { intros v E. rewrite P4 in E. discriminate. }
  unfold s. rewrite Q3. auto.
Qed.

(** The payload of the request of [handleTrimEnd], when there is one. *)
Lemma handleTrimEnd_payload (s : State) (sid iid : string) (v : Trim.Values) :
  In (trimItem_mutate sid iid v) (snd (handleTrimEnd storyId s)) ->
  exists r : TrimStartItem,
    trimStartItemRef (trim s) = Some r
    /\ v = {| Trim.trim_start_ms :=
                Math_round (tempOr Trim.trim_start_ms (initialTrimStart r) s);
              Trim.trim_end_ms :=
                Math_round (tempOr Trim.trim_end_ms (initialTrimEnd r) s) |}
    /\ (~ Trim.trim_start_ms v == initialTrimStart r
        \/ ~ Trim.trim_end_ms v == initialTrimEnd r).
Proof.
  unfold handleTrimEnd.
  destruct (trimmingItem (trim s)) as [i|]; [|simpl; tauto].
  destruct (truthy (Some i)); [|simpl; tauto].
  destruct (trimSide (trim s)) as [sd|]; [|simpl; tauto].
  destruct (trimStartItemRef (trim s)) as [r|]; [|simpl; tauto].
  cbv zeta. simpl snd.
  match goal with |- context [if ?b then _ else _] => destruct b eqn:B end;
    [|simpl; tauto].
  intros [E|[]]. injection E as _ _ <-.
  exists r. split; [reflexivity|]. split; [reflexivity|]. simpl.
  apply orb_true_iff in B. destruct B as [B|B]; apply negb_true_iff in B;
    apply eqb_false in B; tauto.
Qed.

End TrimGesture.

Section TrimClaims.

Variable storyId : string.
Variable items : list Item.StoryItemDetail.

(** The request sent on release carries the provisional values of the
    gesture, and there is none when no move was accepted. *)
Lemma trim_release_payload
      (s0 : State) (c : Container) (e0 : MouseEvent) (it : Item.StoryItemDetail)
      (side : Side) (es : list MouseEvent) (sid iid : string) (v : Trim.Values) :
  tracksRef s0 = Some c ->
  tempTrimValues (trim s0) = None ->
  let s := moves handleTrimMove es (handleTrimStart e0 it side s0) in
  In (trimItem_mutate sid iid v) (snd (handleTrimEnd storyId s)) ->
  exists w : Trim.Values,
    tempTrimValues (trim s) = Some w
    /\ Trim.trim_start_ms v == Trim.trim_start_ms w
    /\ Trim.trim_end_ms v == Trim.trim_end_ms w
    /\ is_integer (Trim.trim_start_ms v)
    /\ is_integer (Trim.trim_end_ms v).
Proof.
  intros R T s Hin.
  destruct (trim_gesture_state s0 c e0 it side es R T) as [G1 [G2 [G3 G4]]].
  fold s in G1, G2, G3, G4.
  destruct (handleTrimEnd_payload storyId s sid iid v Hin) as [r [Er [Ev Hd]]].
  rewrite G1 in Er. injection Er as <-. simpl in Hd.
  unfold tempOr in Ev.
  destruct (tempTrimValues (trim s)) as [w|] eqn:Ew.
  - exists w. split; [reflexivity|].
    destruct (G4 w eq_refl) as [[d Ed] _].
    pose proof (newTrim_sides side
                  {| item := it;
                     initialTrimStart := orZero (Item.trim_start_ms it);
                     initialTrimEnd := orZero (Item.trim_end_ms it) |} d)
      as [_ [_ [I1 I2]]].
    simpl in I1, I2. rewrite <- Ed in I1, I2.
    specialize (I1 (orZero_integer _)). specialize (I2 (orZero_integer _)).
    subst v. simpl.
    split; [now apply Math_round_integer_id|].
    split; [now apply Math_round_integer_id|].
    split; apply Math_round_integer.
  - exfalso. subst v. simpl in Hd.
    destruct Hd as [N|N]; apply N; apply Math_round_integer_id, orZero_integer.
Qed.

(** The provisional values of a gesture on a clip whose committed trim
    values are not negative. *)
Lemma trim_temp_ok
      (s0 : State) (c : Container) (e0 : MouseEvent) (it : Item.StoryItemDetail)
      (side : Side) (es : list MouseEvent) :
  tracksRef s0 = Some c ->
  tempTrimValues (trim s0) = None ->
  0 <= orZero (Item.trim_start_ms it) ->
  0 <= orZero (Item.trim_end_ms it) ->
  forall v : Trim.Values,
    tempTrimValues (trim (moves handleTrimMove es (handleTrimStart e0 it side s0)))
    = Some v ->
    0 <= Trim.trim_start_ms v
    /\ 0 <= Trim.trim_end_ms v
    /\ Trim.trim_start_ms v + Trim.trim_end_ms v < Item.duration it * 1000 - 100.
Proof.
  intros R T P1 P2 v E.
  destruct (trim_gesture_state s0 c e0 it side es R T) as [_ [_ [_ G4]]].
  destruct (G4 v E) as [[d Ed] B]. simpl in B.
  pose proof (newTrim_sides side
                {| item := it;
                   initialTrimStart := orZero (Item.trim_start_ms it);
                   initialTrimEnd := orZero (Item.trim_end_ms it) |} d)
    as [N1 [N2 _]].
  simpl in N1, N2. rewrite <- Ed in N1, N2.
  specialize (N1 P1). specialize (N2 P2). auto.
Qed.

Lemma trim_release_nonneg
      (s0 : State) (c : Container) (e0 : MouseEvent) (it : Item.StoryItemDetail)
      (side : Side) (es : list MouseEvent) :
  tracksRef s0 = Some c ->
  tempTrimValues (trim s0) = None ->
  0 <= orZero (Item.trim_start_ms it) ->
  0 <= orZero (Item.trim_end_ms it) ->
  forall (sid iid : string) (v : Trim.Values),
    In (trimItem_mutate sid iid v)
       (snd (handleTrimEnd storyId
               (moves handleTrimMove es (handleTrimStart e0 it side s0)))) ->
    0 <= Trim.trim_start_ms v /\ 0 <= Trim.trim_end_ms v.
Proof.
  intros R T P1 P2 sid iid v Hin.
  destruct (trim_release_payload s0 c e0 it side es sid iid v R T Hin)
    as [w [Ew [E1 [E2 _]]]].
  destruct (trim_temp_ok s0 c e0 it side es R T P1 P2 w Ew) as [A [B _]].
  split; lra.
Qed.

(** C1: take a clip whose committed trim values are not negative. After
    the press on either handle and any sequence of pointer moves, the
    provisional values, when a move has set them, are not negative and
    sum to less than [duration_ms - 100]; the values drawn keep the bound
    when the committed ones have it; and the values of the request sent
    on release satisfy the same: at least 100 ms of the clip remain. *)
Theorem trim_keeps_100ms
        (s0 : State) (c : Container) (e0 : MouseEvent) (it : Item.StoryItemDetail)
        (side : Side) (es : list MouseEvent) :
  tracksRef s0 = Some c ->
  tempTrimValues (trim s0) = None ->
  0 <= orZero (Item.trim_start_ms it) ->
  0 <= orZero (Item.trim_end_ms it) ->
  let duration_ms := Item.duration it * 1000 in
  let s := moves handleTrimMove es (handleTrimStart e0 it side s0) in
  (forall v : Trim.Values,
      tempTrimValues (trim s) = Some v ->
      trimOk duration_ms v
      /\ 100 < duration_ms - Trim.trim_start_ms v - Trim.trim_end_ms v)
  /\ (trimOk duration_ms (committedTrim it) ->
      trimOk duration_ms (displayTrim s it))
  /\ (forall (sid iid : string) (v : Trim.Values),
      In (trimItem_mutate sid iid v) (snd (handleTrimEnd storyId s)) ->
      trimOk duration_ms v
      /\ 100 < duration_ms - Trim.trim_start_ms v - Trim.trim_end_ms v).
Proof.
  intros R T P1 P2 duration_ms s.
  destruct (trim_gesture_state s0 c e0 it side es R T) as [G1 [G2 [G3 G4]]].
  fold s in G1, G2, G3, G4.
  assert (Temp : forall v : Trim.Values,
             tempTrimValues (trim s) = Some v ->
             trimOk duration_ms v
             /\ 100 < duration_ms - Trim.trim_start_ms v - Trim.trim_end_ms v).
  { intros v E.
    destruct (trim_temp_ok s0 c e0 it side es R T P1 P2 v E) as [A [B C]].
    fold duration_ms in C. unfold trimOk. repeat split; lra. }
  split; [exact Temp|]. split.
  - intro C. unfold displayTrim.
    destruct (id_eqb (trimmingItem (trim s)) (Some (Item.id it))); [|exact C].
    destruct (tempTrimValues (trim s)) as [w|] eqn:E; [|exact C].
    apply (Temp w eq_refl).
  - intros sid iid v Hin.
    destruct (trim_release_payload s0 c e0 it side es sid iid v R T Hin)
      as [w [Ew [E1 [E2 _]]]].
    fold s in Ew. destruct (Temp w Ew) as [[A [B C]] D].
    unfold trimOk. repeat split; lra.
Qed.

(** The move and trim requests are well-formed: a move request carries a
    start time that is an integer and not negative and a lane of the
    current track list; a trim request carries two integers, and after a
    gesture on a clip whose committed trim values are not negative neither
    of them is negative. The split request is not covered: its time is not
    rounded ([split_request_is_not_rounded]). *)
Theorem payloads_are_integers
        (s0 : State) (c : Container) (e0 : MouseEvent) (it : Item.StoryItemDetail)
        (side : Side) (es : list MouseEvent) :
  tracksRef s0 = Some c ->
  tempTrimValues (trim s0) = None ->
  0 <= orZero (Item.trim_start_ms it) ->
  0 <= orZero (Item.trim_end_ms it) ->
  (forall (s : State) (sid iid : string) (t : number) (k : Z),
      In (moveItem_mutate sid iid t k) (snd (handleDragEnd storyId items s)) ->
      is_integer t /\ 0 <= t /\ In k (tracks items))
  /\ (forall (s : State) (sid iid : string) (v : Trim.Values),
      In (trimItem_mutate sid iid v) (snd (handleTrimEnd storyId s)) ->
      is_integer (Trim.trim_start_ms v) /\ is_integer (Trim.trim_end_ms v))
  /\ (forall (sid iid : string) (v : Trim.Values),
      In (trimItem_mutate sid iid v)
         (snd (handleTrimEnd storyId
                 (moves handleTrimMove es (handleTrimStart e0 it side s0)))) ->
      0 <= Trim.trim_start_ms v /\ 0 <= Trim.trim_end_ms v).
Proof.
  intros R T P1 P2. split; [|split].
  - intros s sid iid t k. unfold handleDragEnd.
    destruct (truthy (draggingItem (drag s))); [|simpl; tauto].
    destruct (tracksRef s); [|simpl; tauto].
    destruct (findItem items (draggingItem (drag s))); [|simpl; tauto].
    cbv zeta. simpl snd.
    match goal with |- context [if ?b then _ else _] => destruct b end;
      [|simpl; tauto].
    intros [E|[]]. injection E as _ _ <- <-.
    destruct (newTimeMs_integer s) as [I N].
    split; [exact I|]. split; [exact N|]. apply newTrack_In.
  - intros s sid iid v Hin.
    destruct (handleTrimEnd_payload storyId s sid iid v Hin) as [r [_ [Ev _]]].
    subst v. simpl. split; apply Math_round_integer.
  - intros sid iid v Hin.
    destruct (trim_release_nonneg s0 c e0 it side es R T P1 P2 sid iid v Hin)
      as [A B].
    split; assumption.
Qed.

End TrimClaims.

(** The 2 s clip, start handle pressed at x = 124: a move of 6 px sets
    the provisional start trim to 120 ms; a move of 500 px (10 s) to the
    right is refused by the guard and leaves 120 ms in place. *)
Lemma trim_keeps_100ms_witness :
  let s0 := initialState (Sample.storeAt (Some "a"%string) false 0)
                         (Some Sample.container) in
  let s := moves handleTrimMove [Sample.at_ 130 380; Sample.at_ 624 380]
                 (handleTrimStart (Sample.at_ 124 380) Sample.clipA SideStart s0) in
  let v := {| Trim.trim_start_ms := 120; Trim.trim_end_ms := 0 |} in
  tempTrimValues (trim s) = Some v
  /\ snd (handleTrimEnd Sample.storyId s)
     = [trimItem_mutate Sample.storyId "a" v]
  /\ trimOk (Item.duration Sample.clipA * 1000) v.
Proof.
  intros s0 s v.
  assert (E : tempTrimValues (trim s) = Some v) by (vm_compute; reflexivity).
  split; [exact E|]. split; [vm_compute; reflexivity|].
  assert (N : 0 <= orZero None) by (vm_compute; discriminate).
  destruct (trim_keeps_100ms Sample.storyId s0 Sample.container
              (Sample.at_ 124 380) Sample.clipA SideStart
              [Sample.at_ 130 380; Sample.at_ 624 380]
              eq_refl eq_refl N N) as [H _].
  exact (proj1 (H v E)).
Defined.

Lemma payloads_are_integers_witness :
  let s0 := initialState (Sample.storeAt (Some "a"%string) false 0)
                         (Some Sample.container) in
  let s := moves handleTrimMove [Sample.at_ 130 380; Sample.at_ 624 380]
                 (handleTrimStart (Sample.at_ 124 380) Sample.clipA SideStart s0) in
  let v := {| Trim.trim_start_ms := 120; Trim.trim_end_ms := 0 |} in
  In (trimItem_mutate Sample.storyId "a" v) (snd (handleTrimEnd Sample.storyId s))
  /\ 0 <= Trim.trim_start_ms v /\ 0 <= Trim.trim_end_ms v.
Proof.
  intros s0 s v.
  assert (I : In (trimItem_mutate Sample.storyId "a" v)
                 (snd (handleTrimEnd Sample.storyId s)))
    by (vm_compute; left; reflexivity).
  split; [exact I|].
  assert (N : 0 <= orZero None) by (vm_compute; discriminate).
  destruct (payloads_are_integers Sample.storyId Sample.items s0 Sample.container
              (Sample.at_ 124 380) Sample.clipA SideStart
              [Sample.at_ 130 380; Sample.at_ 624 380]
              eq_refl eq_refl N N) as [_ [_ H]].
  exact (H Sample.storyId "a"%string v I).
Defined.

(** ** Interaction modes *)

Section Modes.

Variable storyId : string.
Variable items : list Item.StoryItemDetail.

Ltac by_cases :=
  repeat match goal with
         | |- context [match ?x with _ => _ end] => destruct x; try reflexivity
         end.

Lemma flags_handleDragStart e rect it s :
  trimOn (handleDragStart e rect it s) = trimOn s
  /\ resizeOn (handleDragStart e rect it s) = resizeOn s.
Proof. unfold handleDragStart. destruct (tracksRef s); split; reflexivity. Qed.

Lemma flags_handleTrimStart e it side s :
  dragOn (handleTrimStart e it side s) = dragOn s
  /\ resizeOn (handleTrimStart e it side s) = resizeOn s.
Proof. unfold handleTrimStart. destruct (tracksRef s); split; reflexivity. Qed.

Lemma flags_handleResizeStart e s :
  dragOn (handleResizeStart e s) = dragOn s
  /\ trimOn (handleResizeStart e s) = trimOn s.
Proof. split; reflexivity. Qed.

Lemma flags_handleDragMove e s : flags (handleDragMove e s) = flags s.
Proof. unfold handleDragMove. by_cases. Qed.

Lemma flags_handleTrimMove e s : flags (handleTrimMove e s) = flags s.
Proof. unfold handleTrimMove. by_cases. Qed.

Lemma flags_handleResizeMove e s : flags (handleResizeMove e s) = flags s.
Proof. unfold handleResizeMove. by_cases. Qed.

Lemma flags_handleDragEnd s :
  flags (fst (handleDragEnd storyId items s)) = (false, trimOn s, resizeOn s).
Proof. unfold handleDragEnd. by_cases. Qed.

Lemma flags_handleTrimEnd s :
  flags (fst (handleTrimEnd storyId s)) = (dragOn s, false, resizeOn s).
Proof. unfold handleTrimEnd. by_cases. Qed.

Lemma flags_handleResizeEnd s :
  flags (handleResizeEnd s) = (dragOn s, trimOn s, false).
Proof. reflexivity. Qed.

Lemma flags_handleClipClick it s : flags (handleClipClick it s) = flags s.
Proof. unfold handleClipClick. by_cases. Qed.

Lemma flags_handleTimelineClick e s : flags (handleTimelineClick e s) = flags s.
Proof. unfold handleTimelineClick. by_cases. Qed.

Lemma flags_handleSplit s : flags (fst (handleSplit storyId items s)) = flags s.
Proof. unfold handleSplit. by_cases. Qed.

Lemma flags_autoScroll s : flags (autoScroll storyId s) = flags s.
Proof. unfold autoScroll. by_cases. Qed.

Lemma fst_andThen (h1 h2 : State -> State * list Effect) (s : State) :
  fst (andThen h1 h2 s) = fst (h2 (fst (h1 s))).
Proof.
  unfold andThen. destruct (h1 s) as [s1 e1]. simpl.
  destruct (h2 s1) as [s2 e2]. reflexivity.
Qed.

Lemma flags_eq (s : State) (a b c : bool) :
  flags s = (a, b, c) <-> dragOn s = a /\ trimOn s = b /\ resizeOn s = c.
Proof.
  unfold flags. split.
  - intro E. injection E as -> -> ->. auto.
  - intros [-> [-> ->]]. reflexivity.
Qed.

Lemma flags_when_dragEnd (c : bool) (s : State) :
  flags (fst (when (fun s0 => c && dragOn s0) (handleDragEnd storyId items) s))
  = (negb c && dragOn s, trimOn s, resizeOn s).
Proof.
  unfold when. destruct c; simpl.
  - destruct (dragOn s) eqn:D.
    + apply flags_handleDragEnd.
    + simpl. unfold flags. now rewrite D.
  - reflexivity.
Qed.

Lemma flags_when_trimEnd (s : State) :
  flags (fst (when trimOn (handleTrimEnd storyId) s)) = (dragOn s, false, resizeOn s).
Proof.
  unfold when. destruct (trimOn s) eqn:T.
  - apply flags_handleTrimEnd.
  - simpl. unfold flags. now rewrite T.
Qed.

Lemma flags_when_resizeEnd (s : State) :
  flags (fst (when resizeOn (lift handleResizeEnd) s)) = (dragOn s, trimOn s, false).
Proof.
  unfold when, lift. destruct (resizeOn s) eqn:R.
  - reflexivity.
  - simpl. unfold flags. now rewrite R.
Qed.

(** A release switches the trim and resize modes off, and the drag mode
    too when the pointer is over the timeline element. *)
Lemma flags_MouseUp (p : Pointer) (s : State) :
  flags (fst (dispatch storyId items p MouseUp s))
  = (negb (overTimeline p) && dragOn s, false, false).
Proof.
  unfold dispatch. rewrite !fst_andThen.
  pose proof (flags_when_dragEnd (overTimeline p) s) as F1.
  set (s1 := fst (when (fun s0 => overTimeline p && dragOn s0)
                       (handleDragEnd storyId items) s)) in *.
  pose proof (flags_when_trimEnd s1) as F2.
  set (s2 := fst (when trimOn (handleTrimEnd storyId) s1)) in *.
  pose proof (flags_when_resizeEnd s2) as F3.
  apply flags_eq in F1, F2. destruct F1 as [D1 [T1 R1]], F2 as [D2 [T2 R2]].
  rewrite F3. congruence.
Qed.

Lemma flags_when_move (c : State -> bool) (h : State -> State) (s : State) :
  (forall s0, flags (h s0) = flags s0) ->
  flags (fst (when c (lift h) s)) = flags s.
Proof.
  intro H. unfold when, lift. destruct (c s); [apply H | reflexivity].
Qed.

(** A pointer move changes no mode. *)
Lemma flags_MouseMove (p : Pointer) (e : MouseEvent) (s : State) :
  flags (fst (dispatch storyId items p (MouseMove e) s)) = flags s.
Proof.
  unfold dispatch. rewrite !fst_andThen.
  rewrite !flags_when_move; auto using flags_handleDragMove,
    flags_handleTrimMove, flags_handleResizeMove.
Qed.

Lemma flags_MouseLeave (p : Pointer) (s : State) :
  flags (fst (dispatch storyId items p MouseLeave s)) = (false, trimOn s, resizeOn s).
Proof.
  unfold dispatch, when. destruct (dragOn s) eqn:D.
  - apply flags_handleDragEnd.
  - simpl. unfold flags. now rewrite D.
Qed.

Lemma flags_Click (p : Pointer) (t : Target) (e : MouseEvent) (s : State) :
  flags (fst (dispatch storyId items p (Click t e) s)) = flags s.
Proof.
  destruct t; simpl; unfold lift, when; simpl;
    auto using flags_handleClipClick, flags_handleTimelineClick.
  destruct (truthy (selectedClipId (store s))); [apply flags_handleSplit | reflexivity].
Qed.

Lemma flags_MouseDown (p : Pointer) (t : Target) (e : MouseEvent) (s : State) :
  let s' := fst (dispatch storyId items p (MouseDown t e) s) in
  match t with
  | ClipButton _ _ => trimOn s' = trimOn s /\ resizeOn s' = resizeOn s
  | TrimHandle _ _ => dragOn s' = dragOn s /\ resizeOn s' = resizeOn s
  | ResizeHandle => dragOn s' = dragOn s /\ trimOn s' = trimOn s
  | _ => flags s' = flags s
  end.
Proof.
  destruct t; simpl; unfold lift, when; simpl; try reflexivity.
  - apply flags_handleDragStart.
  - destruct (id_eqb _ _); simpl; [apply flags_handleTrimStart | auto].
  - auto.
Qed.

Lemma flags_same (s s' : State) :
  flags s' = flags s ->
  dragOn s' = dragOn s /\ trimOn s' = trimOn s /\ resizeOn s' = resizeOn s.
Proof. intro E. now apply flags_eq in E. Qed.

Ltac case_flag b :=
  match goal with
  | |- context [b] => destruct b eqn:?
  | H : context [b] |- _ => destruct b eqn:?
  | _ => idtac
  end.

Ltac bool_cases s s' p :=
  unfold modesInv, idle, atMostOneMode, entersMode, activeModes in *;
  repeat match goal with
         | H : dragOn s' = _ |- _ => rewrite H in *; clear H
         | H : trimOn s' = _ |- _ => rewrite H in *; clear H
         | H : resizeOn s' = _ |- _ => rewrite H in *; clear H
         end;
  case_flag (dragOn s'); case_flag (trimOn s'); case_flag (resizeOn s');
  case_flag (dragOn s); case_flag (trimOn s); case_flag (resizeOn s);
  case_flag (buttonDown p); case_flag (overTimeline p);
  simpl in *;
  intuition (try discriminate; try congruence; try lia).

(** One physical event keeps [modesInv], enters a mode only from idle, and
    a release ends idle. *)
Lemma step_modesInv (p : Pointer) (s : State) (ev : DomEvent) :
  modesInv p s ->
  physical p ev = true ->
  modesInv (movePointer p ev) (fst (dispatch storyId items p ev s))
  /\ (entersMode s (fst (dispatch storyId items p ev s)) -> idle s)
  /\ (ev = MouseUp -> idle (fst (dispatch storyId items p ev s))).
Proof.
  intros I Ph.
  remember (fst (dispatch storyId items p ev s)) as s' eqn:Es'.
  destruct ev as [t e | e | | | | t e | f | c | ].
  - pose proof (flags_MouseDown p t e s) as F. cbv zeta in F. rewrite <- Es' in F.
    simpl in Ph. apply andb_true_iff in Ph. destruct Ph as [Up Loc].
    apply negb_true_iff in Up. apply Bool.eqb_prop in Loc.
    clear Es'.
    destruct t; simpl in Loc, F; try apply flags_same in F;
      repeat match goal with H : _ /\ _ |- _ => destruct H end;
      simpl movePointer; bool_cases s s' p.
  - pose proof (flags_MouseMove p e s) as F. rewrite <- Es' in F. clear Es'.
    apply flags_same in F. destruct F as [? [? ?]].
    simpl movePointer. bool_cases s s' p.
  - pose proof (flags_MouseUp p s) as F. rewrite <- Es' in F. clear Es'.
    apply flags_eq in F. destruct F as [? [? ?]].
    simpl in Ph. simpl movePointer. bool_cases s s' p.
  - pose proof (flags_MouseLeave p s) as F. rewrite <- Es' in F. clear Es'.
    apply flags_eq in F. destruct F as [? [? ?]].
    simpl in Ph. simpl movePointer. bool_cases s s' p.
  - simpl in Es'. subst s'. simpl in Ph. simpl movePointer.
    unfold modesInv, idle, atMostOneMode, entersMode, activeModes in *.
    case_flag (dragOn s); case_flag (trimOn s); case_flag (resizeOn s);
      case_flag (buttonDown p); simpl in *;
      intuition (try discriminate; try congruence; try lia).
  - pose proof (flags_Click p t e s) as F. rewrite <- Es' in F. clear Es'.
    apply flags_same in F. destruct F as [? [? ?]].
    simpl movePointer. bool_cases s s' p.
  - assert (F : flags s' = flags s) by (subst s'; reflexivity). clear Es'.
    apply flags_same in F. destruct F as [? [? ?]].
    simpl movePointer. bool_cases s s' p.
  - assert (F : flags s' = flags s) by (subst s'; reflexivity). clear Es'.
    apply flags_same in F. destruct F as [? [? ?]].
    simpl movePointer. bool_cases s s' p.
  - assert (F : flags s' = flags s) by (subst s'; apply flags_autoScroll).
    clear Es'.
    apply flags_same in F. destruct F as [? [? ?]].
    simpl movePointer. bool_cases s s' p.
Qed.

Lemma reachable_modesInv (p : Pointer) (s : State) :
  reachable storyId items p s -> modesInv p s.
Proof.
  induction 1 as [p st c Up | p s ev R IH Ph].
  - unfold modesInv, idle, atMostOneMode, activeModes. simpl.
    repeat split; auto; discriminate.
  - apply (step_modesInv p s ev IH Ph).
Qed.

(** C2, as the code has it: along the events of one pointer (a press only
    with the button up, a release only with it down, the pointer leaving
    the timeline element before it is outside), every reachable state has
    at most one of the drag, trim and resize modes on and none while the
    button is up; an event switches a mode on only in an idle state; and
    the state after a release is idle. The start handlers themselves do
    not test the other modes. *)
Theorem one_mode_on_pointer_traces (p : Pointer) (s : State) :
  reachable storyId items p s ->
  atMostOneMode s
  /\ (buttonDown p = false -> idle s)
  /\ (forall ev : DomEvent,
        physical p ev = true ->
        let s' := fst (dispatch storyId items p ev s) in
        atMostOneMode s'
        /\ (entersMode s s' -> idle s)
        /\ (ev = MouseUp -> idle s')).
Proof.
  intro R. pose proof (reachable_modesInv p s R) as I.
  destruct I as [A [B C]].
  split; [exact A|]. split; [exact B|].
  intros ev Ph s'.
  destruct (step_modesInv p s ev (conj A (conj B C)) Ph) as [[A' _] [E U]].
  subst s'. auto.
Qed.

End Modes.

(** ** Provisional trim values between gestures *)

Section TempValues.

Variable storyId : string.
Variable items : list Item.StoryItemDetail.

Lemma keep_trim (s s' : State) :
  trim s' = trim s -> tempOnlyWhileTrimming s -> tempOnlyWhileTrimming s'.
Proof. unfold tempOnlyWhileTrimming, trimOn. intros ->. auto. Qed.

Lemma trim_handleDragEnd (s : State) :
  trim (fst (handleDragEnd storyId items s)) = trim s.
Proof.
  unfold handleDragEnd.
  repeat match goal with
         | |- context [match ?x with _ => _ end] => destruct x; try reflexivity
         end.
Qed.

Lemma trim_handleSplit (s : State) :
  trim (fst (handleSplit storyId items s)) = trim s.
Proof.
  unfold handleSplit.
  repeat match goal with
         | |- context [match ?x with _ => _ end] => destruct x; try reflexivity
         end.
Qed.

Lemma temp_when_trimMove (e : MouseEvent) (s : State) :
  tempOnlyWhileTrimming s ->
  tempOnlyWhileTrimming (fst (when trimOn (lift (handleTrimMove e)) s)).
Proof.
  intro K. unfold when, lift. destruct (trimOn s) eqn:T; [|exact K].
  simpl. intro C.
  pose proof (flags_handleTrimMove e s) as F. apply flags_same in F.
  destruct F as [_ [F _]]. congruence.
Qed.

Lemma temp_when_trimEnd (s : State) :
  tempOnlyWhileTrimming s ->
  tempOnlyWhileTrimming (fst (when trimOn (handleTrimEnd storyId) s)).
Proof.
  intro K. unfold when. destruct (trimOn s) eqn:T; [|exact K].
  intros _. unfold handleTrimEnd.
  repeat match goal with
         | |- context [match ?x with _ => _ end] => destruct x; try reflexivity
         end.
Qed.

Lemma temp_step (p : Pointer) (s : State) (ev : DomEvent) :
  modesInv p s ->
  physical p ev = true ->
  tempOnlyWhileTrimming s ->
  tempOnlyWhileTrimming (fst (dispatch storyId items p ev s)).
Proof.
  intros I Ph K.
  destruct ev as [t e | e | | | | t e | f | c | ].
  - simpl in Ph. apply andb_true_iff in Ph. destruct Ph as [Up _].
    apply negb_true_iff in Up.
    destruct I as [_ [Idle _]]. specialize (Idle Up).
    assert (T : trimOn s = false).
    { unfold idle, activeModes in Idle.
      destruct (dragOn s), (trimOn s), (resizeOn s); simpl in Idle;
        (reflexivity || discriminate). }
    destruct t; simpl; unfold lift, when; simpl; try exact K.
    + apply (keep_trim s); [|exact K].
      unfold handleDragStart. destruct (tracksRef s); reflexivity.
    + destruct (id_eqb _ _); simpl; [|exact K].
      intros _. unfold handleTrimStart.
      destruct (tracksRef s); simpl; apply (K T).
  - unfold dispatch. rewrite !fst_andThen.
    assert (K1 : tempOnlyWhileTrimming
                   (fst (when (fun s0 => overTimeline p && dragOn s0)
                              (lift (handleDragMove e)) s))).
    { apply (keep_trim s); [|exact K]. unfold when, lift.
      destruct (overTimeline p && dragOn s); [|reflexivity].
      simpl. unfold handleDragMove.
      destruct (truthy _), (tracksRef s); reflexivity. }
    apply (temp_when_trimMove e) in K1.
    eapply keep_trim; [|exact K1].
    unfold when, lift.
    match goal with |- context [if ?b then _ else _] => destruct b end;
      [|reflexivity].
    simpl. unfold handleResizeMove.
    match goal with |- context [if ?b then _ else _] => destruct b end;
      reflexivity.
  - unfold dispatch. rewrite !fst_andThen.
    assert (K1 : tempOnlyWhileTrimming
                   (fst (when (fun s0 => overTimeline p && dragOn s0)
                              (handleDragEnd storyId items) s))).
    { apply (keep_trim s); [|exact K]. unfold when.
      destruct (overTimeline p && dragOn s); [|reflexivity].
      apply trim_handleDragEnd. }
    apply temp_when_trimEnd in K1.
    eapply keep_trim; [|exact K1].
    unfold when, lift.
    match goal with |- context [if ?b then _ else _] => destruct b end;
      reflexivity.
  - apply (keep_trim s); [|exact K]. simpl. unfold when.
    destruct (dragOn s); [apply trim_handleDragEnd | reflexivity].
  - exact K.
  - apply (keep_trim s); [|exact K].
    destruct t; simpl; unfold lift, when; simpl; try reflexivity.
    + unfold handleClipClick.
      match goal with |- context [if ?b then _ else _] => destruct b end;
        reflexivity.
    + unfold handleTimelineClick. destruct (tracksRef s); [|reflexivity].
      match goal with |- context [if ?b then _ else _] => destruct b end;
        reflexivity.
    + destruct (truthy (selectedClipId (store s)));
        [apply trim_handleSplit | reflexivity].
  - exact K.
  - exact K.
  - apply (keep_trim s); [|exact K]. simpl. unfold autoScroll.
    repeat match goal with
           | |- context [match ?x with _ => _ end] => destruct x; try reflexivity
           end.
Qed.

(** X23: between gestures (button up) no provisional trim values are held: the
    state in which a trim gesture starts has [tempTrimValues = null]. *)
Lemma reachable_idle_no_temp (p : Pointer) (s : State) :
  reachable storyId items p s ->
  tempOnlyWhileTrimming s
  /\ (buttonDown p = false -> tempTrimValues (trim s) = None).
Proof.
  intro R.
  assert (K : tempOnlyWhileTrimming s).
  { induction R as [p st c Up | p s ev R IH Ph].
    - intros _. reflexivity.
    - apply temp_step; auto. now apply (reachable_modesInv storyId items). }
  split; [exact K|].
  intro Up. apply K.
  destruct (reachable_modesInv storyId items p s R) as [_ [Idle _]].
  specialize (Idle Up). unfold idle, activeModes in Idle.
  destruct (dragOn s), (trimOn s), (resizeOn s); simpl in Idle;
    (reflexivity || discriminate).
Qed.

End TempValues.

(** ** The zoom range along the events *)

Section ZoomRange.

Variable storyId : string.
Variable items : list Item.StoryItemDetail.

Ltac same_pps :=
  repeat match goal with
         | |- context [match ?x with _ => _ end] => destruct x; try reflexivity
         end.

Lemma pps_when (c : State -> bool) (h : State -> State * list Effect) (s : State) :
  (forall s0, pixelsPerSecond (fst (h s0)) = pixelsPerSecond s0) ->
  pixelsPerSecond (fst (when c h s)) = pixelsPerSecond s.
Proof. intro H. unfold when. destruct (c s); [apply H | reflexivity]. Qed.

Lemma pps_handleDragEnd (s : State) :
  pixelsPerSecond (fst (handleDragEnd storyId items s)) = pixelsPerSecond s.
Proof. unfold handleDragEnd. same_pps. Qed.

Lemma pps_handleTrimEnd (s : State) :
  pixelsPerSecond (fst (handleTrimEnd storyId s)) = pixelsPerSecond s.
Proof. unfold handleTrimEnd. same_pps. Qed.

Lemma pps_handleSplit (s : State) :
  pixelsPerSecond (fst (handleSplit storyId items s)) = pixelsPerSecond s.
Proof. unfold handleSplit. same_pps. Qed.

(** Only the two zoom buttons change [pixelsPerSecond]. *)
Lemma pps_dispatch (p : Pointer) (ev : DomEvent) (s : State) :
  pixelsPerSecond (fst (dispatch storyId items p ev s))
  = match ev with
    | Click ZoomInButton _ => zoomIn (pixelsPerSecond s)
    | Click ZoomOutButton _ => zoomOut (pixelsPerSecond s)
    | _ => pixelsPerSecond s
    end.
Proof.
  destruct ev as [t e | e | | | | t e | f | c | ].
  - destruct t; simpl; unfold lift, when; simpl; try reflexivity.
    + unfold handleDragStart. same_pps.
    + destruct (id_eqb _ _); simpl; [|reflexivity].
      unfold handleTrimStart. same_pps.
  - unfold dispatch. rewrite !fst_andThen.
    rewrite !pps_when; try reflexivity; intro s0; unfold lift; simpl.
    + unfold handleDragMove. same_pps.
    + unfold handleTrimMove. same_pps.
    + unfold handleResizeMove. same_pps.
  - unfold dispatch. rewrite !fst_andThen.
    rewrite !pps_when; try reflexivity;
      auto using pps_handleDragEnd, pps_handleTrimEnd.
  - unfold dispatch. apply pps_when, pps_handleDragEnd.
  - reflexivity.
  - destruct t; simpl; unfold lift; simpl; try reflexivity.
    + unfold handleClipClick. same_pps.
    + unfold handleTimelineClick. same_pps.
    + apply pps_when, pps_handleSplit.
  - reflexivity.
  - reflexivity.
  - simpl. unfold autoScroll. same_pps.
Qed.

(** X17: [pixelsPerSecond] never leaves 10..200: the mapper is only used with a
    zoom factor of that range. *)
Lemma reachable_zoom_range (p : Pointer) (s : State) :
  reachable storyId items p s -> 10 <= pixelsPerSecond s <= 200.
Proof.
  induction 1 as [p st c Up | p s ev R IH Ph].
  - simpl. unfold DEFAULT_PIXELS_PER_SECOND. lra.
  - rewrite pps_dispatch.
    destruct ev as [t e | e | | | | t e | f | c | ]; try exact IH.
    destruct t; try exact IH; apply (zoom_range _ IH).
Qed.

End ZoomRange.

(** [handleSplit] sends the offset as it is: with the playhead at 4000.5 ms
    the request for the clip that starts at 2000 ms carries 2000.5. *)
Lemma split_offset_not_rounded :
  let s := initialState (Sample.storeAt (Some "b"%string) false (8001 # 2))
                        (Some Sample.container) in
  exists (t : number) (k : State -> State),
    snd (handleSplit Sample.storyId Sample.items s)
    = [splitItem_mutate Sample.storyId "b" t k]
    /\ t == 4001 # 2
    /\ ~ is_integer t.
Proof.
  intro s. eexists. eexists. split; [vm_compute; reflexivity|].
  split; [reflexivity|].
  intros [z E]. unfold Qeq in E. simpl in E. lia.
Qed.

Lemma reachable_run (storyId : string) (items : list Item.StoryItemDetail)
      (evs : list DomEvent) (p : Pointer) (s : State) :
  reachable storyId items p s ->
  allPhysical evs p = true ->
  reachable storyId items (fst (run storyId items evs (p, s)))
            (snd (run storyId items evs (p, s))).
Proof.
  revert p s. induction evs as [|ev evs IH]; intros p s R A; [exact R|].
  simpl in A. apply andb_prop in A. destruct A as [A1 A2].
  unfold run. simpl fold_left. apply IH; [|exact A2].
  apply reachable_step; assumption.
Qed.

(** C9: the split request carries a time that is not rounded, where the move
    and trim requests round theirs. With the pointer's own events (a click
    is a press, a release and the click): one zoom-in step (75 px/s); a
    click on the ruler 200 px right of the origin, which seeks to
    200 / 75 * 1000 = 2666.67 ms; a click on clip b of the sample
    (2000..7000 ms), which selects it; a click on the split button. The
    request carries [split_time_ms = 2000/3], which is no integer. *)
Theorem split_request_is_not_rounded :
  let s0 := initialState (Sample.storeAt None false 0) (Some Sample.container) in
  let click (t : Target) (e : MouseEvent) := [MouseDown t e; MouseUp; Click t e] in
  let rectB :=
    clipRect Sample.container 0
             (style (renderClip Sample.items (handleZoomIn s0) Sample.clipB)) in
  let trace :=
    [MouseLeave] ++ click ZoomInButton (Sample.at_ 700 280)
    ++ [MouseEnter] ++ click Timeline (Sample.at_ 264 310)
    ++ click (ClipButton Sample.clipB rectB) (Sample.at_ 230 340)
    ++ [MouseLeave; MouseDown SplitButton (Sample.at_ 600 280); MouseUp] in
  let ps := run Sample.storyId Sample.items trace (Sample.pointer0, s0) in
  let split := Click SplitButton (Sample.at_ 600 280) in
  allPhysical (trace ++ [split]) Sample.pointer0 = true
  /\ reachable Sample.storyId Sample.items (fst ps) (snd ps)
  /\ pixelsPerSecond (snd ps) == 75
  /\ currentTimeMs (store (snd ps)) == 8000 # 3
  /\ selectedClipId (store (snd ps)) = Some "b"%string
  /\ exists (t : number) (k : State -> State),
       snd (dispatch Sample.storyId Sample.items (fst ps) split (snd ps))
       = [splitItem_mutate Sample.storyId "b" t k]
       /\ t == 2000 # 3
       /\ ~ is_integer t.
Proof.
  intros s0 click rectB trace ps split.
  assert (A : allPhysical (trace ++ [split]) Sample.pointer0 = true)
    by (vm_compute; reflexivity).
  split; [exact A|]. split.
  { apply reachable_run.
    - apply reachable_init. reflexivity.
    - vm_compute. reflexivity. }
  split; [vm_compute; reflexivity|].
  split; [vm_compute; reflexivity|].
  split; [vm_compute; reflexivity|].
  eexists. eexists. split; [vm_compute; reflexivity|].
  split; [vm_compute; reflexivity|].
  intros [z E]. unfold Qeq in E. simpl in E. lia.
Qed.

(** A press on the clip starts a drag, the only mode on; the release that
    follows leaves the editor idle. *)
Lemma one_mode_on_pointer_traces_witness :
  let s0 := initialState (Sample.storeAt None false 0) (Some Sample.container) in
  let press := MouseDown (ClipButton Sample.clipA Sample.rectA) (Sample.at_ 130 380) in
  let p1 := movePointer Sample.pointer0 press in
  let s1 := fst (dispatch Sample.storyId Sample.items Sample.pointer0 press s0) in
  reachable Sample.storyId Sample.items p1 s1
  /\ dragOn s1 = true
  /\ atMostOneMode s1
  /\ idle (fst (dispatch Sample.storyId Sample.items p1 MouseUp s1)).
Proof.
  intros s0 press p1 s1.
  assert (R : reachable Sample.storyId Sample.items p1 s1).
  { apply reachable_step; [|reflexivity].
    apply reachable_init. reflexivity. }
  destruct (one_mode_on_pointer_traces Sample.storyId Sample.items p1 s1 R)
    as [A [_ H]].
  destruct (H MouseUp eq_refl) as [_ [_ U]].
  split; [exact R|]. split; [reflexivity|]. split; [exact A|].
  exact (U eq_refl).
Defined.

(** C2, as stated, fails: the handlers accept a second press before the
    release. After a click that selects the clip, a press on the clip
    and then a press on its start handle, the clip is both dragged and
    trimmed; the trim mode was entered from a state that was not idle. *)
Lemma overlapping_presses_two_modes :
  let s0 := initialState (Sample.storeAt None false 0) (Some Sample.container) in
  let onClip := ClipButton Sample.clipA Sample.rectA in
  let before :=
    snd (run Sample.storyId Sample.items
             [Click onClip (Sample.at_ 130 380);
              MouseDown onClip (Sample.at_ 130 380)]
             (Sample.pointer0, s0)) in
  let after :=
    snd (run Sample.storyId Sample.items
             [Click onClip (Sample.at_ 130 380);
              MouseDown onClip (Sample.at_ 130 380);
              MouseDown (TrimHandle Sample.clipA SideStart) (Sample.at_ 124 380)]
             (Sample.pointer0, s0)) in
  draggingItem (drag after) = Some "a"%string
  /\ trimmingItem (trim after) = Some "a"%string
  /\ ~ atMostOneMode after
  /\ entersMode before after
  /\ ~ idle before
  /\ after = handleTrimStart (Sample.at_ 124 380) Sample.clipA SideStart before.
Proof.
  intros s0 onClip before after.
  split; [reflexivity|]. split; [reflexivity|].
  split; [|split; [|split]].
  - unfold atMostOneMode.
    change (activeModes after) with 2%nat. lia.
  - right. left. split; reflexivity.
  - unfold idle. vm_compute. discriminate.
  - reflexivity.
Qed.

(** ** More on the track list *)

Section TrackList.

Variable items : list Item.StoryItemDetail.

Lemma Set_from_NoDup (xs seen : list Z) : NoDup (Set_from seen xs).
Proof.
  revert seen. induction xs as [|x xs IH]; intro seen; simpl.
  - constructor.
  - destruct (existsb (Z.eqb x) seen); [apply IH|].
    constructor; [|apply IH].
    rewrite In_Set_from. simpl. tauto.
Qed.

Lemma insert_desc_descending (x : Z) (l : list Z) :
  descending l -> ~ In x l -> descending (insert_desc x l).
Proof.
  induction l as [|y l IH]; intros S N; simpl.
  - repeat constructor.
  - apply StronglySorted_inv in S. destruct S as [S F].
    destruct (y <=? x)%Z eqn:E.
    + apply Z.leb_le in E.
      assert (y <> x) by (intro; subst; apply N; now left).
      constructor; [constructor; assumption|].
      constructor; [lia|].
      rewrite Forall_forall in *. intros z Hz. specialize (F z Hz). lia.
    + apply Z.leb_gt in E.
      constructor.
      * apply IH; [exact S|]. intro C. apply N. now right.
      * rewrite Forall_forall in *. intros z Hz.
        apply In_insert_desc in Hz. destruct Hz as [->|Hz]; [lia | now apply F].
Qed.

Lemma sort_desc_descending (l : list Z) : NoDup l -> descending (sort_desc l).
Proof.
  induction 1 as [|x l N D IH]; simpl; [constructor|].
  apply insert_desc_descending; [exact IH|].
  now rewrite In_sort_desc.
Qed.

Lemma descending_NoDup (l : list Z) : descending l -> NoDup l.
Proof.
  induction 1 as [|x l S IH F]; constructor; [|exact IH].
  intro C. rewrite Forall_forall in F. specialize (F x C). lia.
Qed.

(** A strictly descending list is determined by its elements. *)
Lemma descending_unique (l1 l2 : list Z) :
  descending l1 -> descending l2 ->
  (forall z, In z l1 <-> In z l2) -> l1 = l2.
Proof.
  revert l2. induction l1 as [|x l1 IH]; intros l2 S1 S2 E.
  - destruct l2 as [|y l2]; [reflexivity|].
    exfalso. apply (proj2 (E y)). now left.
  - destruct l2 as [|y l2].
    { exfalso. apply (proj1 (E x)). now left. }
    apply StronglySorted_inv in S1. destruct S1 as [S1 F1].
    apply StronglySorted_inv in S2. destruct S2 as [S2 F2].
    rewrite Forall_forall in F1, F2.
    assert (x = y).
    { destruct (proj1 (E x) (or_introl eq_refl)) as [->|Hx]; [reflexivity|].
      destruct (proj2 (E y) (or_introl eq_refl)) as [->|Hy]; [reflexivity|].
      specialize (F1 y Hy). specialize (F2 x Hx). lia. }
    subst y. f_equal. apply IH; [exact S1 | exact S2|].
    intro z. split; intro Hz.
    + destruct (proj1 (E z) (or_intror Hz)) as [->|H]; [|exact H].
      specialize (F1 z Hz). lia.
    + destruct (proj2 (E z) (or_intror Hz)) as [->|H]; [|exact H].
      specialize (F2 z Hz). lia.
Qed.

Lemma tracksOf_descending : descending (tracksOf items).
Proof. unfold tracksOf. apply sort_desc_descending, Set_from_NoDup. Qed.

(** X1: the track list is strictly descending (so without duplicates), holds
    exactly the three default lanes and the lanes of the clips, and its
    first entry is its largest lane and at least 1. *)
Theorem tracks_descending_exact :
  descending (tracks items)
  /\ NoDup (tracks items)
  /\ (forall t : Z,
        In t (tracks items)
        <-> (t = 1 \/ t = 0 \/ t = -1)%Z
            \/ exists it, In it items /\ Item.track it = t)
  /\ (forall t : Z, In t (tracks items) -> (t <= nth 0 (tracks items) 0)%Z)
  /\ (1 <= nth 0 (tracks items) 0)%Z.
Proof.
  unfold tracks.
  pose proof tracksOf_descending as S.
  assert (Top : forall t : Z, In t (tracksOf items) -> (t <= nth 0 (tracksOf items) 0)%Z).
  { intros t Ht. destruct (tracksOf items) as [|a l]; [destruct Ht|].
    simpl. apply StronglySorted_inv in S. destruct S as [_ F].
    rewrite Forall_forall in F.
    destruct Ht as [->|Ht]; [lia|]. specialize (F t Ht). lia. }
  split; [exact S|]. split; [now apply descending_NoDup|].
  split; [|split].
  - intro t. rewrite In_tracksOf. unfold DEFAULT_TRACKS. simpl.
    rewrite in_map_iff.
    split.
    + intros [[H|[H|[H|[]]]]|[it [E Hin]]]; [left; lia | left; lia | left; lia|].
      right. exists it. auto.
    + intros [[H|[H|H]]|[it [Hin E]]]; [left; auto | left; auto | left; auto|].
      right. exists it. auto.
  - exact Top.
  - apply Top. apply In_tracksOf. left. simpl. auto.
Qed.

End TrackList.

(** X2: the track list depends only on which lanes the clips use: not on the
    order of the clips, nor on how many clips share a lane. *)
Theorem tracks_depend_on_lanes_only (items items' : list Item.StoryItemDetail) :
  (forall t : Z, In t (map Item.track items) <-> In t (map Item.track items')) ->
  tracks items = tracks items'.
Proof.
  intro E. unfold tracks.
  apply descending_unique; try apply tracksOf_descending.
  intro z. rewrite !In_tracksOf, E. reflexivity.
Qed.

Lemma tracks_depend_on_lanes_only_witness :
  tracks [Sample.clipA; Sample.clipB; Sample.clipA] = tracks [Sample.clipB; Sample.clipA].
Proof.
  apply tracks_depend_on_lanes_only.
  intro t. simpl. tauto.
Defined.

Section TrackIndex.

Variable items : list Item.StoryItemDetail.

Lemma indexOf_absent (l : list Z) (x : Z) : ~ In x l -> indexOf l x = (-1)%Z.
Proof.
  induction l as [|y l IH]; simpl; [reflexivity|].
  intro N. destruct (y =? x)%Z eqn:E.
  - apply Z.eqb_eq in E. tauto.
  - rewrite IH by tauto. reflexivity.
Qed.

Lemma indexOf_nth (l : list Z) (k : nat) :
  NoDup l -> (k < List.length l)%nat -> indexOf l (nth k l 0%Z) = Z.of_nat k.
Proof.
  intro D. revert k. induction D as [|y l N D IH]; intros k Hk; simpl in *; [lia|].
  destruct k as [|k].
  - rewrite Z.eqb_refl. reflexivity.
  - assert (Hk' : (k < List.length l)%nat) by lia.
    destruct (y =? nth k l 0)%Z eqn:E.
    + apply Z.eqb_eq in E. exfalso. apply N. rewrite E. now apply nth_In.
    + rewrite (IH k Hk').
      destruct (Z.of_nat k <? 0)%Z eqn:L; [apply Z.ltb_lt in L; lia | lia].
Qed.

Lemma getTrackIndex_in_range (it : Item.StoryItemDetail) :
  In it items ->
  (0 <= getTrackIndex items (Item.track it) < Z.of_nat (List.length (tracks items)))%Z
  /\ nth (Z.to_nat (getTrackIndex items (Item.track it))) (tracks items) 0%Z
     = Item.track it.
Proof.
  intro Hin. unfold getTrackIndex, tracks.
  apply indexOf_In. apply In_tracksOf. right. now apply in_map.
Qed.

(** X3: rows and lanes correspond: the row of a lane of the list holds that
    lane, the lane of a row has that row, every clip has a row in range,
    and a lane that is not in the list has row -1. *)
Theorem getTrackIndex_rows_and_lanes :
  (forall it, In it items ->
     (0 <= getTrackIndex items (Item.track it) < Z.of_nat (List.length (tracks items)))%Z
     /\ nth (Z.to_nat (getTrackIndex items (Item.track it))) (tracks items) 0%Z
        = Item.track it)
  /\ (forall k : nat, (k < List.length (tracks items))%nat ->
        getTrackIndex items (nth k (tracks items) 0%Z) = Z.of_nat k)
  /\ (forall t : Z, ~ In t (tracks items) -> getTrackIndex items t = (-1)%Z).
Proof.
  unfold getTrackIndex, tracks. split; [|split].
  - intros it Hin. now apply getTrackIndex_in_range.
  - intros k Hk. apply indexOf_nth; [|exact Hk].
    apply descending_NoDup, tracksOf_descending.
  - intros t N. now apply indexOf_absent.
Qed.

End TrackIndex.

(** ** The extent of the timeline *)

Section Extent.

Lemma Math_max_of_bounds (xs : list number) (c : number) :
  c <= Math_max_of xs c
  /\ (forall x, In x xs -> x <= Math_max_of xs c)
  /\ (Math_max_of xs c = c \/ In (Math_max_of xs c) xs).
Proof.
  induction xs as [|a xs [IH1 [IH2 IH3]]]; simpl.
  - split; [lra|]. split; [tauto | now left].
  - destruct (Math_max_spec a (Math_max_of xs c)) as [[H E] | [H E]]; rewrite E.
    + split; [exact IH1|]. split.
      * intros x [->|Hx]; [exact H | now apply IH2].
      * destruct IH3 as [->|I]; [now left | right; now right].
    + split; [lra|]. split.
      * intros x [->|Hx]; [lra | specialize (IH2 x Hx); lra].
      * right. now left.
Qed.

Lemma totalDurationMs_bounds (items : list Item.StoryItemDetail) :
  10000 <= totalDurationMs items
  /\ (forall it, In it items -> clipEnd it <= totalDurationMs items).
Proof.
  unfold totalDurationMs.
  destruct (Math_max_of_bounds (map clipEnd items) 10000) as [B1 [B2 _]].
  destruct items as [|it0 rest] eqn:Ei.
  - simpl. split; [lra | intros it []].
  - rewrite <- Ei in *. replace (List.length items =? 0)%nat with false
      by (subst items; reflexivity).
    split; [exact B1|]. intros it Hin. apply B2. now apply in_map.
Qed.


(** X5: the auto-activate effect acts only for a story with clips that is not
    the active one; the duration it passes is not negative, reaches the
    end of every clip, and the timeline's total duration is that duration
    raised to 10 s. *)
Theorem autoActivate_duration
        (storyId : string) (items : list Item.StoryItemDetail) (s : State) :
  (items = [] \/ playbackStoryId (store s) = Some storyId ->
   autoActivate storyId items s = None)
  /\ (forall d : number,
        autoActivate storyId items s = Some d ->
        items <> []
        /\ playbackStoryId (store s) <> Some storyId
        /\ 0 <= d
        /\ (forall it, In it items -> clipEnd it <= d)
        /\ totalDurationMs items == Math_max d 10000).
Proof.
  unfold autoActivate. split.
  - intros [->|E]; [reflexivity|].
    rewrite E. simpl. rewrite String.eqb_refl, andb_false_r. reflexivity.
  - intros d H.
    destruct (0 <? List.length items)%nat eqn:L; [|discriminate].
    destruct (id_eqb (playbackStoryId (store s)) (Some storyId)) eqn:A;
      [discriminate|].
    simpl in H. injection H as <-.
    destruct (Math_max_of_bounds (map clipEnd items) 0) as [B1 [B2 B3]].
    destruct (Math_max_of_bounds (map clipEnd items) 10000) as [C1 [C2 C3]].
    assert (NE : items <> []) by (intro C; subst; discriminate).
    split; [exact NE|]. split.
    { intro C. rewrite C in A. simpl in A. rewrite String.eqb_refl in A. discriminate. }
    split; [exact B1|]. split.
    { intros it Hin. apply B2. now apply in_map. }
    unfold totalDurationMs.
    replace (List.length items =? 0)%nat with false
      by (destruct items; [contradiction | reflexivity]).
    apply Qle_antisym.
    + destruct (Math_max_spec (Math_max_of (map clipEnd items) 0) 10000)
        as [[H E] | [H E]]; rewrite E.
      * destruct C3 as [->|I]; [lra|]. specialize (B2 _ I). lra.
      * destruct C3 as [->|I]; [lra|]. now apply B2.
    + destruct (Math_max_spec (Math_max_of (map clipEnd items) 0) 10000)
        as [[H E] | [H E]]; rewrite E; [exact C1|].
      destruct B3 as [E0|I]; [rewrite E0 in *; lra|]. now apply C2.
Qed.

Lemma autoActivate_duration_witness :
  let s := initialState
             {| selectedClipId := None; trackEditorHeight := 200; isPlaying := false;
                currentTimeMs := 0; playbackStoryId := None |}
             (Some Sample.container) in
  autoActivate Sample.storyId Sample.items s = Some 7000
  /\ totalDurationMs Sample.items == Math_max 7000 10000.
Proof.
  intro s.
  assert (E : autoActivate Sample.storyId Sample.items s = Some 7000)
    by (vm_compute; reflexivity).
  split; [exact E|].
  exact (proj2 (proj2 (proj2 (proj2
           (proj2 (autoActivate_duration Sample.storyId Sample.items s) 7000 E))))).
Defined.

End Extent.

(** ** Time markers *)

Section Markers.

Lemma inject_Z_succ (n : nat) :
  inject_Z (Z.of_nat (S n)) == inject_Z (Z.of_nat n) + 1.
Proof. rewrite Nat2Z.inj_succ. unfold Z.succ. rewrite inject_Z_plus. reflexivity. Qed.

(** The loop pushes [ms], [ms + step], ... while they are at most [limit]:
    when exactly [m] of them are, any bound above [m] lets it finish. *)
Lemma markersLoop_spec (limit step : number) (m : nat) :
  0 < step ->
  forall (ms : number) (fuel : nat),
    (m < fuel)%nat ->
    limit < ms + inject_Z (Z.of_nat m) * step ->
    (m = 0%nat \/ ms + (inject_Z (Z.of_nat m) - 1) * step <= limit) ->
    exists l : list number,
      markersLoop fuel limit step ms = Some l
      /\ List.length l = m
      /\ forall i : nat, (i < m)%nat ->
           nth i l 0 == ms + inject_Z (Z.of_nat i) * step.
Proof.
  intro Hs. induction m as [|m IH]; intros ms fuel Hf Hhi Hlo.
  - destruct fuel as [|k]; [lia|]. simpl.
    assert (E : leb ms limit = false).
    { apply leb_false. change (inject_Z (Z.of_nat 0)) with 0 in Hhi. lra. }
    rewrite E. exists []. split; [reflexivity|]. split; [reflexivity|].
    intros i Hi. lia.
  - destruct fuel as [|k]; [lia|]. simpl.
    rewrite inject_Z_succ in Hhi.
    destruct Hlo as [C|Hlo]; [discriminate|]. rewrite inject_Z_succ in Hlo.
    assert (Hm : 0 <= inject_Z (Z.of_nat m)).
    { change 0 with (inject_Z 0). rewrite <- Zle_Qle. lia. }
    assert (Hms : 0 <= inject_Z (Z.of_nat m) * step)
      by (apply Qmult_le_0_compat; lra).
    assert (E : leb ms limit = true).
    { apply leb_true. lra. }
    rewrite E.
    destruct (IH (ms + step) k) as [l [El [Len Nth]]].
    + lia.
    + lra.
    + destruct m as [|m']; [now left|]. right. lra.
    + rewrite El. exists (ms :: l). split; [reflexivity|].
      split; [simpl; lia|].
      intros [|i] Hi.
      * simpl nth. change (inject_Z (Z.of_nat 0)) with 0. lra.
      * simpl nth. rewrite (Nth i) by lia. rewrite inject_Z_succ. lra.
Qed.

Lemma intervalMs_cases (pps : number) :
  (100 < pps /\ intervalMs pps = 1000)
  \/ (50 < pps <= 100 /\ intervalMs pps = 2000)
  \/ (20 <= pps <= 50 /\ intervalMs pps = 5000)
  \/ (pps < 20 /\ intervalMs pps = 10000).
Proof.
  unfold intervalMs.
  destruct (ltb 100 pps) eqn:A.
  { apply ltb_true in A. left. auto. }
  apply ltb_false in A.
  destruct (ltb 50 pps) eqn:B.
  { apply ltb_true in B. right. left. auto. }
  apply ltb_false in B.
  destruct (ltb pps 20) eqn:C.
  { apply ltb_true in C. right. right. right. auto. }
  apply ltb_false in C. right. right. left. auto.
Qed.

Lemma intervalMs_pos (pps : number) : 0 < intervalMs pps.
Proof.
  destruct (intervalMs_cases pps) as [[_ E]|[[_ E]|[[_ E]|[_ E]]]]; rewrite E; lra.
Qed.

(** X6: with a bound above the number of markers the loop finishes. The
    markers are the multiples 0, step, 2 step, ... of the interval of the
    zoom level, [k + 1] of them for [k = floor((total + step) / step)];
    the last one lies beyond the end of the timeline and at most one
    interval beyond it. *)
Theorem timeMarkers_multiples
        (fuel : nat) (pps : number) (items : list Item.StoryItemDetail) :
  let step := intervalMs pps in
  let total := totalDurationMs items in
  let k := Z.to_nat (Qfloor ((total + step) / step)) in
  (k + 1 < fuel)%nat ->
  exists l : list number,
    timeMarkers fuel pps items = Some l
    /\ List.length l = (k + 1)%nat
    /\ (forall i : nat, (i <= k)%nat -> nth i l 0 == inject_Z (Z.of_nat i) * step)
    /\ total < nth k l 0 <= total + step.
Proof.
  intros step total k Hf.
  pose proof (intervalMs_pos pps) as Hs. fold step in Hs.
  destruct (totalDurationMs_bounds items) as [Ht _]. fold total in Ht.
  set (x := (total + step) / step) in *.
  assert (Hx : x * step == total + step) by (unfold x; field; lra).
  assert (Hx0 : 0 <= x).
  { unfold x. apply Qle_shift_div_l; lra. }
  assert (Hk0 : (0 <= Qfloor x)%Z).
  { apply Qfloor_resp_le in Hx0. exact Hx0. }
  assert (Hk : inject_Z (Z.of_nat k) == inject_Z (Qfloor x)).
  { unfold k. rewrite Z2Nat.id by exact Hk0. reflexivity. }
  pose proof (Qfloor_le x) as F1. pose proof (Qlt_floor x) as F2.
  rewrite inject_Z_plus in F2. change (inject_Z 1) with 1 in F2.
  assert (L1 : inject_Z (Z.of_nat k) * step <= total + step).
  { rewrite <- Hx, Hk. apply Qmult_le_compat_r; lra. }
  assert (L2 : total + step < (inject_Z (Z.of_nat k) + 1) * step).
  { rewrite <- Hx, Hk. apply Qmult_lt_compat_r; lra. }
  destruct (markersLoop_spec (total + step) step (k + 1) Hs 0 fuel Hf)
    as [l [El [Len Nth]]].
  - replace (k + 1)%nat with (S k) by lia. rewrite inject_Z_succ. lra.
  - right. replace (k + 1)%nat with (S k) by lia. rewrite inject_Z_succ. lra.
  - exists l. split; [exact El|]. split; [exact Len|]. split.
    + intros i Hi. rewrite (Nth i) by lia. lra.
    + rewrite (Nth k) by lia. split; lra.
Qed.

(** At 50 px/s a story of 10 s gets the four markers 0, 5, 10 and 15 s. *)
Lemma timeMarkers_multiples_witness :
  exists l : list number,
    timeMarkers 10 50 Sample.items = Some l
    /\ List.length l = 4%nat
    /\ nth 3 l 0 == 15000.
Proof.
  destruct (timeMarkers_multiples 10 50 Sample.items) as [l [E [Len [Nth _]]]].
  - vm_compute. lia.
  - exists l. split; [exact E|]. split; [exact Len|].
    rewrite (Nth 3%nat); [reflexivity | vm_compute; lia].
Defined.

(** X7: at every zoom level of the range 10..200 two neighbouring markers are
    between 100 and 250 pixels apart. *)
Theorem marker_spacing_in_pixels (pps : number) :
  10 <= pps <= 200 ->
  100 <= msToPixels pps (intervalMs pps) <= 250.
Proof.
  intros [Lo Hi]. unfold msToPixels.
  destruct (intervalMs_cases pps) as [[H E]|[[H E]|[[H E]|[H E]]]]; rewrite E.
  - setoid_replace (1000 / 1000 * pps) with pps by field. lra.
  - setoid_replace (2000 / 1000 * pps) with (2 * pps) by field. lra.
  - setoid_replace (5000 / 1000 * pps) with (5 * pps) by field. lra.
  - setoid_replace (10000 / 1000 * pps) with (10 * pps) by field. lra.
Qed.

Lemma marker_spacing_in_pixels_witness :
  10 <= 75 <= 200 /\ 100 <= msToPixels 75 (intervalMs 75) <= 250.
Proof.
  assert (R : 10 <= 75 <= 200) by lra.
  split; [exact R | exact (marker_spacing_in_pixels 75 R)].
Defined.

End Markers.

(** ** Time labels *)

Section Labels.

Lemma Math_floor_div60 (t : Z) : Math_floor (inject_Z t / 60) = (t / 60)%Z.
Proof.
  unfold Math_floor, Qdiv, Qmult, Qinv, inject_Z. simpl.
  rewrite Z.mul_1_r. reflexivity.
Qed.

Lemma two_digits (n : nat) :
  (n < 60)%nat ->
  toString (Z.of_nat n) = Some (decimal (Z.of_nat n))
  /\ padStart 2 zeroChar (decimal (Z.of_nat n))
     = String (digitChar (Z.of_nat n / 10))
              (String (digitChar (Z.of_nat n mod 10)) EmptyString).
Proof.
  intro H.
  do 60 (destruct n as [|n]; [split; vm_compute; reflexivity|]).
  lia.
Qed.

(** X8: for a time from 0 to below 2^53 ms (binary64 numbers of that range
    give the same whole seconds and minutes as exact arithmetic, and print
    without an exponent) the label is the whole minutes in decimal digits,
    a colon, and the remaining whole seconds (0..59) as exactly two digits;
    minutes and seconds add up to the whole seconds of the time. *)
Theorem formatTime_minutes_and_two_digits (ms : number) :
  0 <= ms < 9007199254740992 ->
  exists m sec : Z,
    (0 <= m)%Z /\ (0 <= sec < 60)%Z
    /\ (m * 60 + sec)%Z = Math_floor (ms / 1000)
    /\ formatTime ms
       = Some (decimal m ++ ":"
               ++ String (digitChar (sec / 10))
                         (String (digitChar (sec mod 10)) EmptyString))%string.
Proof.
  intros [H Hhi].
  set (t := Math_floor (ms / 1000)).
  assert (Ht : (0 <= t < 9007199254740992)%Z).
  { unfold t, Math_floor. split.
    - assert (Hq : 0 <= ms / 1000) by (apply Qle_shift_div_l; lra).
      apply Qfloor_resp_le in Hq. exact Hq.
    - assert (Hq : ms / 1000 < inject_Z 9007199254740992).
      { apply Qlt_shift_div_r; [reflexivity|].
        change (inject_Z 9007199254740992) with 9007199254740992. lra. }
      pose proof (Qfloor_le (ms / 1000)) as L.
      rewrite Zlt_Qlt. lra. }
  exists (t / 60)%Z, (t mod 60)%Z.
  pose proof (Z.mod_pos_bound t 60 ltac:(lia)) as B.
  assert (M : (0 <= t / 60 < 9007199254740992)%Z).
  { split; [apply Z.div_pos; lia|].
    apply Z.div_lt_upper_bound; lia. }
  split; [lia|]. split; [exact B|].
  split.
  { pose proof (Z.div_mod t 60 ltac:(lia)). lia. }
  unfold formatTime. fold t. rewrite Math_floor_div60.
  rewrite Z.rem_mod_nonneg by lia.
  assert (Em : toString (t / 60) = Some (decimal (t / 60))).
  { unfold toString.
    replace (Z.abs (t / 60) <? 10 ^ 21)%Z with true; [reflexivity|].
    symmetry. apply Z.ltb_lt. rewrite Z.abs_eq by lia.
    apply Z.lt_trans with (1 := proj2 M). reflexivity. }
  rewrite Em.
  destruct (two_digits (Z.to_nat (t mod 60)) ltac:(lia)) as [Es Ed].
  rewrite Z2Nat.id in Es, Ed by lia.
  rewrite Es, Ed. reflexivity.
Qed.

(** 75 s is labelled 1:15, and 59.999 s is labelled 0:59. *)
Lemma formatTime_minutes_and_two_digits_witness :
  0 <= 75000 < 9007199254740992
  /\ (exists m sec : Z,
      (m * 60 + sec)%Z = 75%Z
      /\ formatTime 75000
         = Some (decimal m ++ ":"
                 ++ String (digitChar (sec / 10))
                           (String (digitChar (sec mod 10)) EmptyString))%string)
  /\ formatTime 75000 = Some "1:15"%string
  /\ formatTime 59999 = Some "0:59"%string.
Proof.
  assert (H : 0 <= 75000 < 9007199254740992)
    by (split; [vm_compute; discriminate | reflexivity]).
  split; [exact H|]. split.
  - destruct (formatTime_minutes_and_two_digits 75000 H) as [m [sec [_ [_ [A E]]]]].
    exists m, sec. split; [exact A | exact E].
  - split; vm_compute; reflexivity.
Defined.

End Labels.

(** ** Clicks *)

Section Clicks.

Lemma Math_max_comp (a a' b b' : number) :
  a == a' -> b == b' -> Math_max a b == Math_max a' b'.
Proof.
  intros Ea Eb.
  destruct (Math_max_spec a b) as [[H E] | [H E]]; rewrite E;
    destruct (Math_max_spec a' b') as [[H' E'] | [H' E']]; rewrite E'; lra.
Qed.



End Clicks.

(** ** Dragging *)

Lemma Math_round_mono (a b : number) : a <= b -> Math_round a <= Math_round b.
Proof.
  intro L. unfold Math_round. rewrite <- Zle_Qle. apply Qfloor_resp_le. lra.
Qed.

Section Dragging.

Variable storyId : string.
Variable items : list Item.StoryItemDetail.

Lemma drag_moves_keep (es : list MouseEvent) (s : State) :
  let s' := moves handleDragMove es s in
  draggingItem (drag s') = draggingItem (drag s)
  /\ dragOffset (drag s') = dragOffset (drag s)
  /\ tracksRef s' = tracksRef s
  /\ pixelsPerSecond s' = pixelsPerSecond s.
Proof.
  revert s. induction es as [|e es IH]; intro s; [repeat split; reflexivity|].
  unfold moves in *. simpl.
  destruct (IH (handleDragMove e s)) as [A [B [C D]]].
  cbv zeta. rewrite A, B, C, D.
  unfold handleDragMove.
  destruct (truthy (draggingItem (drag s))); destruct (tracksRef s) eqn:R;
    simpl; rewrite ?R; repeat split; reflexivity.
Qed.

(** X11: during a drag the clip follows the pointer: after the press [e0] and
    any moves, the move to [e] puts the clip where it was at the press,
    shifted by the pointer's displacement since the press, with the left
    edge held at 0; the moves in between do not matter. *)
Theorem drag_follows_pointer
        (s0 : State) (c : Container) (e0 : MouseEvent) (rect : DOMRect.t)
        (it : Item.StoryItemDetail) (es : list MouseEvent) (e : MouseEvent) :
  tracksRef s0 = Some c ->
  truthy (Some (Item.id it)) = true ->
  let pressed := handleDragStart e0 rect it s0 in
  let s := handleDragMove e (moves handleDragMove es pressed) in
  Point.x (dragPosition (drag s))
  == Math_max 0 (Point.x (dragPosition (drag pressed)) + (clientX e - clientX e0))
  /\ Point.y (dragPosition (drag s))
     == Point.y (dragPosition (drag pressed)) + (clientY e - clientY e0)
  /\ 0 <= Point.x (dragPosition (drag s))
  /\ draggingItem (drag s) = Some (Item.id it).
Proof.
  intros R T pressed s.
  destruct (drag_moves_keep es pressed) as [A [B [C D]]].
  assert (P : draggingItem (drag pressed) = Some (Item.id it)
              /\ tracksRef pressed = Some c
              /\ dragOffset (drag pressed)
                 = {| Point.x := clientX e0 - DOMRect.left rect;
                      Point.y := clientY e0 - DOMRect.top rect |}
              /\ dragPosition (drag pressed)
                 = {| Point.x := DOMRect.left rect - DOMRect.left (boundingRect c)
                                 + scrollLeft c;
                      Point.y := DOMRect.top rect - DOMRect.top (boundingRect c)
                                 - TIME_RULER_HEIGHT |}).
  { unfold pressed, handleDragStart. rewrite R. simpl. auto. }
  destruct P as [P1 [P2 [P3 P4]]].
  assert (Es : dragPosition (drag s)
               = {| Point.x :=
                      Math_max 0
                        (clientX e - DOMRect.left (boundingRect c) + scrollLeft c
                         - (clientX e0 - DOMRect.left rect));
                    Point.y :=
                      clientY e - DOMRect.top (boundingRect c)
                      - (clientY e0 - DOMRect.top rect) - TIME_RULER_HEIGHT |}
               /\ draggingItem (drag s) = Some (Item.id it)).
  { unfold s. unfold handleDragMove at 1 3. rewrite A, B, C, P1, P2, P3, T. simpl.
    rewrite A, P1. split; reflexivity. }
  destruct Es as [Es Ed]. rewrite Es, Ed, P4. simpl.
  split; [apply Math_max_comp; [reflexivity | ring]|].
  split; [ring|]. split; [|reflexivity].
  match goal with |- 0 <= Math_max 0 ?a =>
    destruct (Math_max_spec 0 a) as [[H E]|[H E]]; rewrite E; lra end.
Qed.

Lemma drag_follows_pointer_witness :
  let s0 := initialState (Sample.storeAt None false 0) (Some Sample.container) in
  let s := handleDragMove (Sample.at_ 320 432)
             (moves handleDragMove [Sample.at_ 10 10; Sample.at_ 500 500]
                (handleDragStart (Sample.at_ 130 380) Sample.rectA Sample.clipA s0)) in
  Point.x (dragPosition (drag s)) == 250 /\ Point.y (dragPosition (drag s)) == 100.
Proof.
  intros s0 s.
  destruct (drag_follows_pointer s0 Sample.container (Sample.at_ 130 380)
              Sample.rectA Sample.clipA [Sample.at_ 10 10; Sample.at_ 500 500]
              (Sample.at_ 320 432) eq_refl eq_refl) as [A [B _]].
  fold s in A, B. split.
  - rewrite A. vm_compute. reflexivity.
  - rewrite B. vm_compute. reflexivity.
Defined.

Lemma Qfloor_unique (x : number) (k : Z) :
  inject_Z k <= x -> x < inject_Z k + 1 -> Qfloor x = k.
Proof.
  intros L U.
  pose proof (Qfloor_le x) as F1. pose proof (Qlt_floor x) as F2.
  rewrite inject_Z_plus in F2. change (inject_Z 1) with 1 in F2.
  assert (A : (Qfloor x < k + 1)%Z).
  { rewrite Zlt_Qlt, inject_Z_plus. change (inject_Z 1) with 1. lra. }
  assert (B : (k < Qfloor x + 1)%Z).
  { rewrite Zlt_Qlt, inject_Z_plus. change (inject_Z 1) with 1. lra. }
  lia.
Qed.

Lemma descending_nth (l : list Z) (i j : nat) :
  descending l -> (i < j)%nat -> (j < List.length l)%nat ->
  (nth j l 0 < nth i l 0)%Z.
Proof.
  intro S. revert i j. induction S as [|x l S IH F]; intros i j Hij Hj; simpl in Hj.
  - lia.
  - destruct j as [|j]; [lia|]. destruct i as [|i]; simpl.
    + rewrite Forall_forall in F. apply F. apply nth_In. lia.
    + apply IH; lia.
Qed.

(** X12: the lane a release picks is the one of the row under the clip's top
    edge (rows are 48 px high); above the first row it is the first lane,
    the largest, and from the end of the last row on it is the last lane,
    the smallest. *)
Theorem newTrack_is_row_under_clip (s : State) :
  let y := Point.y (dragPosition (drag s)) in
  let n := List.length (tracks items) in
  (y < 0 -> newTrack items s = nth 0 (tracks items) 0%Z)
  /\ (forall k : nat, (k < n)%nat ->
        inject_Z (Z.of_nat k) * 48 <= y < (inject_Z (Z.of_nat k) + 1) * 48 ->
        newTrack items s = nth k (tracks items) 0%Z)
  /\ (inject_Z (Z.of_nat n) * 48 <= y ->
      newTrack items s = nth (n - 1) (tracks items) 0%Z)
  /\ (forall t : Z, In t (tracks items) ->
        (nth (n - 1) (tracks items) 0 <= t <= nth 0 (tracks items) 0)%Z).
Proof.
  intros y n.
  pose proof (tracksOf_nonempty items) as Hn. fold (tracks items) in Hn. fold n in Hn.
  set (f := Math_floor (y / TRACK_HEIGHT)).
  assert (N : newTrack items s
              = nth (Z.to_nat (Z.max 0 (Z.min f (Z.of_nat n - 1)))) (tracks items) 0%Z)
    by reflexivity.
  pose proof (Qfloor_le (y / TRACK_HEIGHT)) as F1.
  pose proof (Qlt_floor (y / TRACK_HEIGHT)) as F2.
  rewrite inject_Z_plus in F2. change (inject_Z 1) with 1 in F2.
  fold (Math_floor (y / TRACK_HEIGHT)) in F1, F2. fold f in F1, F2.
  assert (D : y / TRACK_HEIGHT * 48 == y) by (unfold TRACK_HEIGHT; field).
  split; [|split; [|split]].
  - intro Hy. rewrite N.
    assert (f < 0)%Z.
    { rewrite Zlt_Qlt. change (inject_Z 0) with 0. lra. }
    replace (Z.max 0 (Z.min f (Z.of_nat n - 1))) with 0%Z by lia. reflexivity.
  - intros k Hk [Lo Hi]. rewrite N.
    assert (f = Z.of_nat k).
    { unfold f, Math_floor. apply Qfloor_unique; lra. }
    replace (Z.max 0 (Z.min f (Z.of_nat n - 1))) with (Z.of_nat k) by lia.
    rewrite Nat2Z.id. reflexivity.
  - intro Hy. rewrite N.
    assert (Z.of_nat n < f + 2)%Z.
    { rewrite Zlt_Qlt, inject_Z_plus. change (inject_Z 2) with 2. lra. }
    replace (Z.max 0 (Z.min f (Z.of_nat n - 1))) with (Z.of_nat (n - 1)) by lia.
    rewrite Nat2Z.id. reflexivity.
  - intros t Ht. apply In_nth with (d := 0%Z) in Ht.
    destruct Ht as [i [Hi E]]. fold n in Hi. subst t.
    pose proof (tracksOf_descending items) as S. fold (tracks items) in S.
    split.
    + destruct (Nat.eq_dec i (n - 1)) as [->|Ne]; [lia|].
      pose proof (descending_nth _ i (n - 1) S ltac:(lia) ltac:(fold n; lia)). lia.
    + destruct (Nat.eq_dec i 0) as [->|Ne]; [lia|].
      pose proof (descending_nth _ 0 i S ltac:(lia) ltac:(fold n; lia)). lia.
Qed.

(** X13: the start time of a release follows the clip's left edge: at one
    zoom level an edge further right never gives an earlier start time,
    and an edge at or left of the origin gives 0. (Division by the zoom
    factor, multiplication by 1000, [Math.round] and [Math.max] are
    monotone on binary64 numbers as well.) *)
Theorem newTimeMs_follows_left_edge (s s' : State) :
  0 < pixelsPerSecond s ->
  pixelsPerSecond s' = pixelsPerSecond s ->
  Point.x (dragPosition (drag s)) <= Point.x (dragPosition (drag s')) ->
  newTimeMs s <= newTimeMs s'
  /\ (Point.x (dragPosition (drag s')) <= 0 ->
      newTimeMs s == 0 /\ newTimeMs s' == 0).
Proof.
  intros P E L. unfold newTimeMs. rewrite E.
  set (x := Point.x (dragPosition (drag s))) in *.
  set (x' := Point.x (dragPosition (drag s'))) in *.
  set (pps := pixelsPerSecond s) in *.
  assert (K : 0 < 1000 / pps) by (apply Qlt_shift_div_l; lra).
  assert (Et : forall y, pixelsToMs pps y == y * (1000 / pps)).
  { intro y. unfold pixelsToMs. field. lra. }
  assert (M : pixelsToMs pps x <= pixelsToMs pps x').
  { rewrite !Et. apply Qmult_le_compat_r; lra. }
  pose proof (Math_round_mono _ _ M) as RM.
  split.
  - destruct (Math_max_spec 0 (Math_round (pixelsToMs pps x))) as [[H1 E1]|[H1 E1]];
      rewrite E1;
      destruct (Math_max_spec 0 (Math_round (pixelsToMs pps x'))) as [[H2 E2]|[H2 E2]];
      rewrite E2; lra.
  - intro Hx.
    assert (T : pixelsToMs pps x' <= 0).
    { rewrite Et. setoid_replace 0 with (0 * (1000 / pps)) by ring.
      apply Qmult_le_compat_r; lra. }
    pose proof (Math_round_mono _ _ T) as R0.
    assert (Z0 : Math_round 0 == 0) by reflexivity.
    split.
    + destruct (Math_max_spec 0 (Math_round (pixelsToMs pps x))) as [[H1 E1]|[H1 E1]];
        rewrite E1; lra.
    + destruct (Math_max_spec 0 (Math_round (pixelsToMs pps x'))) as [[H1 E1]|[H1 E1]];
        rewrite E1; lra.
Qed.

End Dragging.

(** The clip dragged from 60 px to 250 px: from 1200 ms to 5000 ms. *)
Lemma newTimeMs_follows_left_edge_witness :
  let s0 := initialState (Sample.storeAt None false 0) (Some Sample.container) in
  let s := handleDragStart (Sample.at_ 130 380) Sample.rectA Sample.clipA s0 in
  let s' := handleDragMove (Sample.at_ 320 432) s in
  newTimeMs s == 1200 /\ newTimeMs s' == 5000 /\ newTimeMs s <= newTimeMs s'.
Proof.
  intros s0 s s'.
  split; [vm_compute; reflexivity|]. split; [vm_compute; reflexivity|].
  destruct (newTimeMs_follows_left_edge s s') as [H _].
  - vm_compute. reflexivity.
  - reflexivity.
  - vm_compute. discriminate.
  - exact H.
Defined.

(** ** More on zoom *)

Section ZoomMore.

(** X15: in exact arithmetic, zooming out undoes a zoom-in that was not
    clamped, and zooming in undoes a zoom-out that was not clamped. On
    binary64 numbers the product and the quotient by 1.5 are rounded, and
    the level that comes back can differ from the one before in its last
    digit: it does not from 50, it does from 26.337448559670786
    ([Binary64Facts.zoom_undo_binary64]). *)
Theorem zoom_steps_undo_each_other (s : State) :
  10 <= pixelsPerSecond s <= 200 ->
  (pixelsPerSecond s * (3 # 2) <= 200 ->
   pixelsPerSecond (handleZoomOut (handleZoomIn s)) == pixelsPerSecond s)
  /\ (10 <= pixelsPerSecond s / (3 # 2) ->
      pixelsPerSecond (handleZoomIn (handleZoomOut s)) == pixelsPerSecond s).
Proof.
  intros [Lo Hi]. unfold handleZoomIn, handleZoomOut. simpl.
  set (p := pixelsPerSecond s) in *.
  assert (D : p / (3 # 2) == p * (2 # 3)) by field.
  split; intro H.
  - destruct (zoomIn_cases p) as [[_ E]|[C _]]; [rewrite E | lra].
    assert (D' : p * (3 # 2) / (3 # 2) == p) by field.
    destruct (zoomOut_cases (p * (3 # 2))) as [[H1 E1]|[H1 E1]]; rewrite E1; lra.
  - destruct (zoomOut_cases p) as [[H1 E]|[H1 E]]; rewrite E.
    + assert (p == 15) by lra.
      destruct (zoomIn_cases 10) as [[_ E1]|[C _]]; [rewrite E1 | lra]. lra.
    + assert (D' : p / (3 # 2) * (3 # 2) == p) by field.
      destruct (zoomIn_cases (p / (3 # 2))) as [[H2 E2]|[H2 E2]]; rewrite E2; lra.
Qed.

Lemma zoom_steps_undo_each_other_witness :
  let s := initialState (Sample.storeAt None false 0) (Some Sample.container) in
  pixelsPerSecond (handleZoomOut (handleZoomIn s)) == 50
  /\ pixelsPerSecond (handleZoomIn (handleZoomOut s)) == 50.
Proof.
  intro s.
  destruct (zoom_steps_undo_each_other s) as [A B].
  - vm_compute. split; discriminate.
  - split.
    + rewrite A; [reflexivity | vm_compute; discriminate].
    + rewrite B; [reflexivity | vm_compute; discriminate].
Defined.

Lemma zoomIn_grows (a p : number) :
  10 <= a -> a <= p -> p <= 200 ->
  (a * (3 # 2) <= zoomIn p \/ zoomIn p == 200) /\ zoomIn p <= 200.
Proof.
  intros Ha Hp Hi.
  destruct (zoomIn_cases p) as [[H E]|[H E]]; rewrite E; split; lra.
Qed.

Lemma zoomOut_shrinks (a p : number) :
  a <= 200 -> p <= a -> 10 <= p ->
  (zoomOut p <= a * (2 # 3) \/ zoomOut p == 10) /\ 10 <= zoomOut p.
Proof.
  intros Ha Hp Lo.
  assert (D : p / (3 # 2) == p * (2 # 3)) by field.
  destruct (zoomOut_cases p) as [[H E]|[H E]]; rewrite E; split; lra.
Qed.

Lemma iter_S {A : Type} (n : nat) (f : A -> A) (a : A) :
  iter (S n) f a = f (iter n f a).
Proof. reflexivity. Qed.

Lemma pps_iter_zoomIn (n : nat) (s : State) :
  pixelsPerSecond (iter n handleZoomIn s) = iter n zoomIn (pixelsPerSecond s).
Proof. induction n as [|n IH]; [reflexivity|]. simpl. now rewrite IH. Qed.

Lemma pps_iter_zoomOut (n : nat) (s : State) :
  pixelsPerSecond (iter n handleZoomOut s) = iter n zoomOut (pixelsPerSecond s).
Proof. induction n as [|n IH]; [reflexivity|]. simpl. now rewrite IH. Qed.

Lemma zoomIn_200 (p : number) : p == 200 -> zoomIn p == 200.
Proof.
  intro E. destruct (zoomIn_cases p) as [[H E1]|[H E1]]; rewrite E1; lra.
Qed.

Lemma zoomOut_10 (p : number) : p == 10 -> zoomOut p == 10.
Proof.
  intro E. assert (D : p / (3 # 2) == p * (2 # 3)) by field.
  destruct (zoomOut_cases p) as [[H E1]|[H E1]]; rewrite E1; lra.
Qed.

(** X16: from any zoom level of the range, eight zoom-in steps reach 200 and
    eight zoom-out steps reach 10, and further steps stay there. *)
Theorem zoom_reaches_the_ends (s : State) :
  10 <= pixelsPerSecond s <= 200 ->
  pixelsPerSecond (iter 8 handleZoomIn s) == 200
  /\ pixelsPerSecond (iter 9 handleZoomIn s) == 200
  /\ pixelsPerSecond (iter 8 handleZoomOut s) == 10
  /\ pixelsPerSecond (iter 9 handleZoomOut s) == 10.
Proof.
  intros [Lo Hi]. rewrite !pps_iter_zoomIn, !pps_iter_zoomOut.
  set (p := pixelsPerSecond s) in *.
  assert (Up : iter 8 zoomIn p == 200).
  { destruct (zoomIn_grows 10 p) as [G1 U1]; try lra.
    pose proof (zoomIn_200) as Fix.
    assert (X1 : 15 <= zoomIn p) by (destruct G1; lra).
    destruct (zoomIn_grows 15 (zoomIn p)) as [G2 U2]; try lra.
    assert (X2 : (45 # 2) <= zoomIn (zoomIn p)) by (destruct G2; lra).
    destruct (zoomIn_grows (45 # 2) (zoomIn (zoomIn p))) as [G3 U3]; try lra.
    assert (X3 : (135 # 4) <= iter 3 zoomIn p) by (simpl; destruct G3; lra).
    destruct (zoomIn_grows (135 # 4) (iter 3 zoomIn p)) as [G4 U4]; try lra.
    { simpl. lra. }
    assert (X4 : (405 # 8) <= iter 4 zoomIn p) by (rewrite iter_S; destruct G4; lra).
    rewrite <- iter_S in U4.
    destruct (zoomIn_grows (405 # 8) (iter 4 zoomIn p)) as [G5 U5]; try lra.
    assert (X5 : (1215 # 16) <= iter 5 zoomIn p) by (rewrite iter_S; destruct G5; lra).
    rewrite <- iter_S in U5.
    destruct (zoomIn_grows (1215 # 16) (iter 5 zoomIn p)) as [G6 U6]; try lra.
    assert (X6 : (3645 # 32) <= iter 6 zoomIn p) by (rewrite iter_S; destruct G6; lra).
    rewrite <- iter_S in U6.
    destruct (zoomIn_grows (3645 # 32) (iter 6 zoomIn p)) as [G7 U7]; try lra.
    assert (X7 : (10935 # 64) <= iter 7 zoomIn p) by (rewrite iter_S; destruct G7; lra).
    rewrite <- iter_S in U7.
    destruct (zoomIn_grows (10935 # 64) (iter 7 zoomIn p)) as [G8 U8]; try lra.
    rewrite <- iter_S in G8, U8.
    destruct G8; lra. }
  assert (Down : iter 8 zoomOut p == 10).
  { destruct (zoomOut_shrinks 200 p) as [G1 U1]; try lra.
    assert (X1 : zoomOut p <= (400 # 3)) by (destruct G1; lra).
    destruct (zoomOut_shrinks (400 # 3) (zoomOut p)) as [G2 U2]; try lra.
    assert (X2 : zoomOut (zoomOut p) <= (800 # 9)) by (destruct G2; lra).
    destruct (zoomOut_shrinks (800 # 9) (zoomOut (zoomOut p))) as [G3 U3]; try lra.
    assert (X3 : iter 3 zoomOut p <= (1600 # 27)) by (simpl; destruct G3; lra).
    destruct (zoomOut_shrinks (1600 # 27) (iter 3 zoomOut p)) as [G4 U4]; try lra.
    { simpl. lra. }
    assert (X4 : iter 4 zoomOut p <= (3200 # 81)) by (rewrite iter_S; destruct G4; lra).
    rewrite <- iter_S in U4.
    destruct (zoomOut_shrinks (3200 # 81) (iter 4 zoomOut p)) as [G5 U5]; try lra.
    assert (X5 : iter 5 zoomOut p <= (6400 # 243)) by (rewrite iter_S; destruct G5; lra).
    rewrite <- iter_S in U5.
    destruct (zoomOut_shrinks (6400 # 243) (iter 5 zoomOut p)) as [G6 U6]; try lra.
    assert (X6 : iter 6 zoomOut p <= (12800 # 729)) by (rewrite iter_S; destruct G6; lra).
    rewrite <- iter_S in U6.
    destruct (zoomOut_shrinks (12800 # 729) (iter 6 zoomOut p)) as [G7 U7]; try lra.
    assert (X7 : iter 7 zoomOut p <= (25600 # 2187)) by (rewrite iter_S; destruct G7; lra).
    rewrite <- iter_S in U7.
    destruct (zoomOut_shrinks (25600 # 2187) (iter 7 zoomOut p)) as [G8 U8]; try lra.
    rewrite <- iter_S in G8, U8.
    destruct G8; lra. }
  split; [exact Up|]. split; [rewrite iter_S; now apply zoomIn_200|].
  split; [exact Down|]. rewrite iter_S. now apply zoomOut_10.
Qed.

Lemma zoom_reaches_the_ends_witness :
  let s := initialState (Sample.storeAt None false 0) (Some Sample.container) in
  pixelsPerSecond (iter 8 handleZoomIn s) == 200
  /\ pixelsPerSecond (iter 8 handleZoomOut s) == 10.
Proof.
  intro s.
  destruct (zoom_reaches_the_ends s) as [A [_ [B _]]].
  - vm_compute. split; discriminate.
  - split; assumption.
Defined.

End ZoomMore.

(** ** Where clips are drawn *)

Section Layout.

Variable storyId : string.
Variable items : list Item.StoryItemDetail.




End Layout.


(** ** More on trim gestures *)

Section TrimMore.

Variable storyId : string.

Lemma trim_moves_keep_origin (es : list MouseEvent) (s : State) :
  trimStartX (trim (moves handleTrimMove es s)) = trimStartX (trim s)
  /\ pixelsPerSecond (moves handleTrimMove es s) = pixelsPerSecond s.
Proof.
  revert s. induction es as [|e es IH]; intro s; [split; reflexivity|].
  unfold moves in *. simpl. destruct (IH (handleTrimMove e s)) as [A B].
  rewrite A, B. unfold handleTrimMove.
  destruct (truthy (trimmingItem (trim s))); [|split; reflexivity].
  destruct (trimSide (trim s)); [|split; reflexivity].
  destruct (trimStartItemRef (trim s)); [|split; reflexivity].
  cbv zeta.
  match goal with |- context [if ?b then _ else _] => destruct b end;
    split; reflexivity.
Qed.

(** The effects of a release: nothing, or one request for the trimmed
    clip of this story. *)
Lemma handleTrimEnd_effects (s : State) :
  snd (handleTrimEnd storyId s) = []
  \/ exists (i : string) (v : Trim.Values),
      trimmingItem (trim s) = Some i
      /\ snd (handleTrimEnd storyId s) = [trimItem_mutate storyId i v].
Proof.
  unfold handleTrimEnd.
  destruct (trimmingItem (trim s)) as [i|]; [|now left].
  destruct (truthy (Some i)); [|now left].
  destruct (trimSide (trim s)); [|now left].
  destruct (trimStartItemRef (trim s)); [|now left].
  cbv zeta. simpl snd.
  match goal with |- context [if ?b then _ else _] => destruct b end;
    [|now left].
  right. eexists. eexists. split; reflexivity.
Qed.

(** X20: a trim gesture sends at most one request; it is for the clip whose
    handle was pressed, and it leaves the other side as committed: the
    start handle does not change [trim_end_ms], the end handle does not
    change [trim_start_ms]. *)
Theorem trim_request_changes_one_side
        (s0 : State) (c : Container) (e0 : MouseEvent) (it : Item.StoryItemDetail)
        (side : Side) (es : list MouseEvent) :
  tracksRef s0 = Some c ->
  tempTrimValues (trim s0) = None ->
  let effects :=
    snd (handleTrimEnd storyId
           (moves handleTrimMove es (handleTrimStart e0 it side s0))) in
  (List.length effects <= 1)%nat
  /\ forall e : Effect, In e effects ->
       exists v : Trim.Values,
         e = trimItem_mutate storyId (Item.id it) v
         /\ (side = SideStart ->
             Trim.trim_end_ms v == orZero (Item.trim_end_ms it))
         /\ (side = SideEnd ->
             Trim.trim_start_ms v == orZero (Item.trim_start_ms it)).
Proof.
  intros R T effects.
  destruct (trim_gesture_state s0 c e0 it side es R T) as [G1 [G2 [G3 G4]]].
  set (s := moves handleTrimMove es (handleTrimStart e0 it side s0)) in *.
  destruct (handleTrimEnd_effects s) as [E|[i [v [Ei E]]]]; fold effects in E.
  - rewrite E. split; [simpl; lia | intros e []].
  - rewrite E. split; [simpl; lia|].
    intros e [<-|[]]. exists v.
    rewrite G3 in Ei. injection Ei as <-.
    split; [reflexivity|].
    assert (Hin : In (trimItem_mutate storyId (Item.id it) v)
                     (snd (handleTrimEnd storyId s))).
    { fold effects. rewrite E. now left. }
    destruct (trim_release_payload storyId s0 c e0 it side es _ _ v R T Hin)
      as [w [Ew [E1 [E2 _]]]].
    fold s in Ew. destruct (G4 w Ew) as [[d Ed] _].
    split; intro Hs; subst side; rewrite Ed in *; simpl in *; assumption.
Qed.


Lemma pixelsToMs_zero (pps : number) : pixelsToMs pps 0 == 0.
Proof. unfold pixelsToMs, Qdiv. ring. Qed.

(** What [handleTrimMove] computes for a pointer that is back at the press
    position, on a clip whose committed trims are valid. *)
Lemma newTrim_at_origin (side : Side) (r : TrimStartItem) (d : number) :
  d == 0 ->
  is_integer (initialTrimStart r) -> is_integer (initialTrimEnd r) ->
  0 <= initialTrimStart r -> 0 <= initialTrimEnd r ->
  initialTrimStart r + initialTrimEnd r < Item.duration (item r) * 1000 - 100 ->
  Trim.trim_start_ms (newTrim side r d) == initialTrimStart r
  /\ Trim.trim_end_ms (newTrim side r d) == initialTrimEnd r.
Proof.
  intros Ed I1 I2 P1 P2 V.
  destruct side; simpl; split; try reflexivity.
  - match goal with |- Math_round ?a == _ =>
      assert (E : a == initialTrimStart r) end.
    { match goal with |- Math_max 0 (Math_min ?a ?b) == _ =>
        destruct (Math_min_spec a b) as [[H E]|[H E]]; rewrite E end;
        match goal with |- Math_max 0 ?a == _ =>
          destruct (Math_max_spec 0 a) as [[H' E']|[H' E']]; rewrite E' end; lra. }
    rewrite (Math_round_comp _ _ E). now apply Math_round_integer_id.
  - match goal with |- Math_round ?a == _ =>
      assert (E : a == initialTrimEnd r) end.
    { match goal with |- Math_max 0 (Math_min ?a ?b) == _ =>
        destruct (Math_min_spec a b) as [[H E]|[H E]]; rewrite E end;
        match goal with |- Math_max 0 ?a == _ =>
          destruct (Math_max_spec 0 a) as [[H' E']|[H' E']]; rewrite E' end; lra. }
    rewrite (Math_round_comp _ _ E). now apply Math_round_integer_id.
Qed.

Lemma trim_end_without_temp (s : State) (r : TrimStartItem) :
  trimStartItemRef (trim s) = Some r ->
  tempTrimValues (trim s) = None ->
  is_integer (initialTrimStart r) -> is_integer (initialTrimEnd r) ->
  snd (handleTrimEnd storyId s) = [].
Proof.
  intros R T I1 I2. unfold handleTrimEnd. rewrite R.
  destruct (trimmingItem (trim s)) as [i|]; [|reflexivity].
  destruct (truthy (Some i)); [|reflexivity].
  destruct (trimSide (trim s)); [|reflexivity].
  cbv zeta. unfold tempOr. rewrite T.
  rewrite (proj2 (eqb_true _ _) (Math_round_integer_id _ I1)).
  rewrite (proj2 (eqb_true _ _) (Math_round_integer_id _ I2)).
  reflexivity.
Qed.

Lemma trim_end_unchanged (s : State) (r : TrimStartItem) (v : Trim.Values) :
  trimStartItemRef (trim s) = Some r ->
  tempTrimValues (trim s) = Some v ->
  Math_round (Trim.trim_start_ms v) == initialTrimStart r ->
  Math_round (Trim.trim_end_ms v) == initialTrimEnd r ->
  snd (handleTrimEnd storyId s) = [].
Proof.
  intros R T E1 E2. unfold handleTrimEnd. rewrite R.
  destruct (trimmingItem (trim s)) as [i|]; [|reflexivity].
  destruct (truthy (Some i)); [|reflexivity].
  destruct (trimSide (trim s)); [|reflexivity].
  cbv zeta. unfold tempOr. rewrite T.
  rewrite (proj2 (eqb_true _ _) E1), (proj2 (eqb_true _ _) E2).
  reflexivity.
Qed.

(** X21: a trim gesture that changes nothing sends nothing: a release straight
    after the press, and a release after any moves that end back at the
    press position, for a zoom factor above 0 and a clip of at most 2^53 ms
    whose committed trims are not negative and leave at least 102 ms. The
    guard of [handleTrimMove] refuses what leaves 100 ms or less; on
    binary64 numbers [duration * 1000] and the two subtractions are each
    rounded by at most half a millisecond in that range, so with 2 ms to
    spare the guard decides as in exact arithmetic. *)
Theorem trim_back_at_press_sends_nothing
        (s0 : State) (c : Container) (e0 : MouseEvent) (it : Item.StoryItemDetail)
        (side : Side) (es : list MouseEvent) (e : MouseEvent) :
  tracksRef s0 = Some c ->
  tempTrimValues (trim s0) = None ->
  0 < pixelsPerSecond s0 ->
  0 <= orZero (Item.trim_start_ms it) ->
  0 <= orZero (Item.trim_end_ms it) ->
  orZero (Item.trim_start_ms it) + orZero (Item.trim_end_ms it) + 102
  <= Item.duration it * 1000 ->
  Item.duration it * 1000 <= 9007199254740992 ->
  clientX e = clientX e0 ->
  snd (handleTrimEnd storyId (handleTrimStart e0 it side s0)) = []
  /\ snd (handleTrimEnd storyId
            (handleTrimMove e
               (moves handleTrimMove es (handleTrimStart e0 it side s0)))) = [].
Proof.
  intros R T _ P1 P2 V102 _ Ex.
  assert (V : orZero (Item.trim_start_ms it) + orZero (Item.trim_end_ms it)
              < Item.duration it * 1000 - 100) by lra.
  split.
  - apply (trim_end_without_temp _
             {| item := it;
                initialTrimStart := orZero (Item.trim_start_ms it);
                initialTrimEnd := orZero (Item.trim_end_ms it) |}).
    + unfold handleTrimStart. rewrite R. reflexivity.
    + unfold handleTrimStart. rewrite R. exact T.
    + apply orZero_integer.
    + apply orZero_integer.
  - destruct (trim_gesture_state s0 c e0 it side es R T) as [G1 [G2 [G3 G4]]].
    destruct (trim_moves_keep_origin es (handleTrimStart e0 it side s0)) as [X _].
    set (g := moves handleTrimMove es (handleTrimStart e0 it side s0)) in *.
    assert (X0 : trimStartX (trim g) = clientX e0).
    { rewrite X. unfold handleTrimStart. rewrite R. reflexivity. }
    set (r := {| item := it;
                 initialTrimStart := orZero (Item.trim_start_ms it);
                 initialTrimEnd := orZero (Item.trim_end_ms it) |}) in *.
    destruct (truthy (Some (Item.id it))) eqn:Tr.
    2:{ unfold handleTrimEnd.
        assert (K : trimmingItem (trim (handleTrimMove e g)) = Some (Item.id it)).
        { destruct (handleTrimMove_inv side r e g G1 G2 G4) as [_ [_ [K _]]].
          now rewrite K. }
        rewrite K, Tr. reflexivity. }
    set (d := pixelsToMs (pixelsPerSecond g) (clientX e - trimStartX (trim g))).
    assert (Ed : d == 0).
    { unfold d. rewrite X0, Ex.
      unfold pixelsToMs, Qdiv, Qminus. ring. }
    destruct (newTrim_at_origin side r d Ed (orZero_integer _) (orZero_integer _)
                P1 P2 V) as [N1 N2].
    assert (Em : handleTrimMove e g = setTempTrimValues (Some (newTrim side r d)) g).
    { unfold handleTrimMove. rewrite G1, G2, G3, Tr. cbv zeta. fold d.
      assert (L : leb (Item.duration (item r) * 1000 - 100)
                      (Trim.trim_start_ms (newTrim side r d)
                       + Trim.trim_end_ms (newTrim side r d)) = false).
      { apply leb_false. simpl in N1, N2 |- *. rewrite N1, N2. exact V. }
      rewrite L. reflexivity. }
    rewrite Em.
    apply (trim_end_unchanged _ r (newTrim side r d)).
    + exact G1.
    + reflexivity.
    + rewrite (Math_round_comp _ _ N1). apply Math_round_integer_id, orZero_integer.
    + rewrite (Math_round_comp _ _ N2). apply Math_round_integer_id, orZero_integer.
Qed.


Lemma clamp_mono (a b hi : number) :
  a <= b -> Math_max 0 (Math_min a hi) <= Math_max 0 (Math_min b hi).
Proof.
  intro L.
  destruct (Math_min_spec a hi) as [[H1 E1]|[H1 E1]]; rewrite E1;
    destruct (Math_min_spec b hi) as [[H2 E2]|[H2 E2]]; rewrite E2;
    match goal with |- Math_max 0 ?x <= Math_max 0 ?y =>
      destruct (Math_max_spec 0 x) as [[H3 E3]|[H3 E3]];
      destruct (Math_max_spec 0 y) as [[H4 E4]|[H4 E4]];
      rewrite ?E3, ?E4
    end; lra.
Qed.

(** The first move after a press: the handler stores the candidate pair
    unless the guard refuses it. *)
Lemma first_trim_move
      (s0 : State) (c : Container) (e0 : MouseEvent) (it : Item.StoryItemDetail)
      (side : Side) (e : MouseEvent) :
  tracksRef s0 = Some c ->
  tempTrimValues (trim s0) = None ->
  let r := {| item := it;
              initialTrimStart := orZero (Item.trim_start_ms it);
              initialTrimEnd := orZero (Item.trim_end_ms it) |} in
  let v := newTrim side r (pixelsToMs (pixelsPerSecond s0) (clientX e - clientX e0)) in
  tempTrimValues (trim (handleTrimMove e (handleTrimStart e0 it side s0)))
  = if truthy (Some (Item.id it))
       && negb (leb (Item.duration it * 1000 - 100)
                    (Trim.trim_start_ms v + Trim.trim_end_ms v))
    then Some v else None.
Proof.
  intros R T r v. unfold handleTrimStart. rewrite R.
  unfold handleTrimMove.
  cbn -[truthy newTrim leb pixelsToMs Qmult Qminus Qplus].
  destruct (truthy (Some (Item.id it))); [|exact T].
  fold r. fold v. simpl andb.
  destruct (leb (Item.duration it * 1000 - 100)
                (Trim.trim_start_ms v + Trim.trim_end_ms v)); [exact T|reflexivity].
Qed.

(** X22: the direction of the handles, for the first move after a press. On
    the start handle left is the side that restores: where [handleTrimMove]
    stores values for a pointer position, it stores values for every
    position further left too, with a start trim that is not larger and
    the end trim as committed. On the end handle right is that side: right
    of a position with stored values every position gets stored values,
    with an end trim that is not larger and the start trim as committed.
    (A position that the guard refuses stores nothing.) *)
Theorem trim_handle_direction
        (s0 : State) (c : Container) (e0 : MouseEvent) (it : Item.StoryItemDetail)
        (e e' : MouseEvent) :
  tracksRef s0 = Some c ->
  tempTrimValues (trim s0) = None ->
  0 < pixelsPerSecond s0 ->
  clientX e <= clientX e' ->
  let stored side ev :=
    tempTrimValues (trim (handleTrimMove ev (handleTrimStart e0 it side s0))) in
  (forall v' : Trim.Values,
      stored SideStart e' = Some v' ->
      exists v : Trim.Values,
        stored SideStart e = Some v
        /\ Trim.trim_start_ms v <= Trim.trim_start_ms v'
        /\ Trim.trim_end_ms v = orZero (Item.trim_end_ms it)
        /\ Trim.trim_end_ms v' = orZero (Item.trim_end_ms it))
  /\ (forall v : Trim.Values,
      stored SideEnd e = Some v ->
      exists v' : Trim.Values,
        stored SideEnd e' = Some v'
        /\ Trim.trim_end_ms v' <= Trim.trim_end_ms v
        /\ Trim.trim_start_ms v = orZero (Item.trim_start_ms it)
        /\ Trim.trim_start_ms v' = orZero (Item.trim_start_ms it)).
Proof.
  intros R T P L stored.
  set (d := fun ev => pixelsToMs (pixelsPerSecond s0) (clientX ev - clientX e0)).
  assert (K : 0 < 1000 / pixelsPerSecond s0) by (apply Qlt_shift_div_l; lra).
  assert (Dm : d e <= d e').
  { unfold d, pixelsToMs.
    setoid_replace ((clientX e - clientX e0) / pixelsPerSecond s0 * 1000)
      with ((clientX e - clientX e0) * (1000 / pixelsPerSecond s0))
      by (field; lra).
    setoid_replace ((clientX e' - clientX e0) / pixelsPerSecond s0 * 1000)
      with ((clientX e' - clientX e0) * (1000 / pixelsPerSecond s0))
      by (field; lra).
    apply Qmult_le_compat_r; lra. }
  set (r := {| item := it;
               initialTrimStart := orZero (Item.trim_start_ms it);
               initialTrimEnd := orZero (Item.trim_end_ms it) |}).
  assert (Ms : Trim.trim_start_ms (newTrim SideStart r (d e))
               <= Trim.trim_start_ms (newTrim SideStart r (d e'))).
  { simpl. apply Math_round_mono, clamp_mono. lra. }
  assert (Me : Trim.trim_end_ms (newTrim SideEnd r (d e'))
               <= Trim.trim_end_ms (newTrim SideEnd r (d e))).
  { simpl. apply Math_round_mono, clamp_mono. lra. }
  unfold stored. split.
  - intros v'. rewrite !(first_trim_move s0 c e0 it SideStart _ R T).
    fold r. fold (d e). fold (d e').
    destruct (truthy (Some (Item.id it))); [|discriminate].
    cbn [andb].
    destruct (leb (Item.duration it * 1000 - 100)
                  (Trim.trim_start_ms (newTrim SideStart r (d e'))
                   + Trim.trim_end_ms (newTrim SideStart r (d e')))) eqn:G';
      cbn [negb]; [discriminate|].
    intro E. injection E as <-. apply leb_false in G'.
    assert (G : leb (Item.duration it * 1000 - 100)
                    (Trim.trim_start_ms (newTrim SideStart r (d e))
                     + Trim.trim_end_ms (newTrim SideStart r (d e))) = false).
    { apply leb_false. simpl in G', Ms |- *. lra. }
    rewrite G. eexists. split; [reflexivity|].
    split; [exact Ms|]. split; reflexivity.
  - intros v. rewrite !(first_trim_move s0 c e0 it SideEnd _ R T).
    fold r. fold (d e). fold (d e').
    destruct (truthy (Some (Item.id it))); [|discriminate].
    cbn [andb].
    destruct (leb (Item.duration it * 1000 - 100)
                  (Trim.trim_start_ms (newTrim SideEnd r (d e))
                   + Trim.trim_end_ms (newTrim SideEnd r (d e)))) eqn:G;
      cbn [negb]; [discriminate|].
    intro E. injection E as <-. apply leb_false in G.
    assert (G' : leb (Item.duration it * 1000 - 100)
                     (Trim.trim_start_ms (newTrim SideEnd r (d e'))
                      + Trim.trim_end_ms (newTrim SideEnd r (d e'))) = false).
    { apply leb_false. simpl in G, Me |- *. lra. }
    rewrite G'. eexists. split; [reflexivity|].
    split; [exact Me|]. split; reflexivity.
Qed.

End TrimMore.

Lemma trim_request_changes_one_side_witness :
  let s0 := initialState (Sample.storeAt (Some "b"%string) false 0)
                         (Some Sample.container) in
  let effects :=
    snd (handleTrimEnd Sample.storyId
           (moves handleTrimMove [Sample.at_ 300 380]
              (handleTrimStart (Sample.at_ 200 380) Sample.clipB SideStart s0))) in
  exists v : Trim.Values,
    effects = [trimItem_mutate Sample.storyId "b" v]
    /\ Trim.trim_start_ms v == 2400
    /\ Trim.trim_end_ms v == 600.
Proof.
  intros s0 effects.
  destruct (trim_request_changes_one_side Sample.storyId s0 Sample.container (Sample.at_ 200 380)
              Sample.clipB SideStart [Sample.at_ 300 380] eq_refl eq_refl)
    as [_ H].
  fold effects in H.
  assert (I : In (trimItem_mutate Sample.storyId "b"
                    {| Trim.trim_start_ms := 2400; Trim.trim_end_ms := 600 |})
                 effects) by (vm_compute; left; reflexivity).
  destruct (H _ I) as [v [E [A _]]].
  exists v. injection E as <-.
  split; [vm_compute; reflexivity|]. split; [reflexivity | exact (A eq_refl)].
Defined.

Lemma trim_back_at_press_sends_nothing_witness :
  let s0 := initialState (Sample.storeAt (Some "b"%string) false 0)
                         (Some Sample.container) in
  snd (handleTrimEnd Sample.storyId
         (handleTrimMove (Sample.at_ 200 400)
            (moves handleTrimMove [Sample.at_ 300 380; Sample.at_ 150 380]
               (handleTrimStart (Sample.at_ 200 380) Sample.clipB SideEnd s0)))) = [].
Proof.
  intro s0.
  apply (trim_back_at_press_sends_nothing Sample.storyId s0 Sample.container (Sample.at_ 200 380)
           Sample.clipB SideEnd [Sample.at_ 300 380; Sample.at_ 150 380]
           (Sample.at_ 200 400)).
  - reflexivity.
  - reflexivity.
  - vm_compute. reflexivity.
  - vm_compute. discriminate.
  - vm_compute. discriminate.
  - vm_compute. discriminate.
  - vm_compute. discriminate.
  - reflexivity.
Defined.

(** Clip b (trims 400/600), start handle pressed at x = 200: the moves to
    x = 210 and x = 260 store the start trims 600 and 1600. *)
Lemma trim_handle_direction_witness :
  let s0 := initialState (Sample.storeAt (Some "b"%string) false 0)
                         (Some Sample.container) in
  let stored ev :=
    tempTrimValues
      (trim (handleTrimMove ev
               (handleTrimStart (Sample.at_ 200 380) Sample.clipB SideStart s0))) in
  stored (Sample.at_ 260 380)
  = Some {| Trim.trim_start_ms := 1600; Trim.trim_end_ms := 600 |}
  /\ exists v : Trim.Values,
      stored (Sample.at_ 210 380) = Some v
      /\ Trim.trim_start_ms v <= 1600.
Proof.
  intros s0 stored.
  assert (E : stored (Sample.at_ 260 380)
              = Some {| Trim.trim_start_ms := 1600; Trim.trim_end_ms := 600 |})
    by (vm_compute; reflexivity).
  split; [exact E|].
  destruct (trim_handle_direction s0 Sample.container (Sample.at_ 200 380)
              Sample.clipB (Sample.at_ 210 380) (Sample.at_ 260 380))
    as [H _].
  - reflexivity.
  - reflexivity.
  - vm_compute. reflexivity.
  - vm_compute. discriminate.
  - destruct (H _ E) as [v [Ev [L _]]]. exists v. split; [exact Ev | exact L].
Defined.

(** ** The waveform window *)

Section WaveformWindow.



End WaveformWindow.

(** ** Playing order *)

Section PlayingOrder.

Variable storyId : string.
Variable items : list Item.StoryItemDetail.

Lemma insertByStart_perm (x : Item.StoryItemDetail) (l : list Item.StoryItemDetail) :
  Permutation (x :: l) (insertByStart x l).
Proof.
  induction l as [|y l IH]; simpl; [reflexivity|].
  destruct (Item.start_time_ms x <=? Item.start_time_ms y)%Z; [reflexivity|].
  rewrite perm_swap. now apply perm_skip.
Qed.

Lemma insertByStart_sorted (x : Item.StoryItemDetail) (l : list Item.StoryItemDetail) :
  StronglySorted byStart l -> StronglySorted byStart (insertByStart x l).
Proof.
  induction l as [|y l IH]; intro S; simpl.
  - repeat constructor.
  - apply StronglySorted_inv in S. destruct S as [S F].
    destruct (Item.start_time_ms x <=? Item.start_time_ms y)%Z eqn:E.
    + apply Z.leb_le in E. constructor; [constructor; assumption|].
      constructor; [exact E|].
      rewrite Forall_forall in *. intros z Hz. specialize (F z Hz).
      unfold byStart in *. lia.
    + apply Z.leb_gt in E. constructor; [now apply IH|].
      rewrite Forall_forall in *. intros z Hz.
      apply (Permutation_in _ (Permutation_sym (insertByStart_perm x l))) in Hz.
      destruct Hz as [<-|Hz]; [unfold byStart; lia | now apply F].
Qed.

Lemma insertByStart_filter (t : Z) (x : Item.StoryItemDetail)
      (l : list Item.StoryItemDetail) :
  filter (startsAt t) (insertByStart x l) = filter (startsAt t) (x :: l).
Proof.
  induction l as [|y l IH]; [reflexivity|].
  simpl insertByStart.
  destruct (Item.start_time_ms x <=? Item.start_time_ms y)%Z eqn:E; [reflexivity|].
  apply Z.leb_gt in E.
  simpl filter in *. rewrite IH. unfold startsAt.
  destruct (Item.start_time_ms x =? t)%Z eqn:Ex;
    destruct (Item.start_time_ms y =? t)%Z eqn:Ey; try reflexivity.
  apply Z.eqb_eq in Ex, Ey. lia.
Qed.

(** X26: play/pause: while this story plays it pauses; otherwise it starts
    playback with all the clips of the story, each once, in ascending
    order of start time, clips with the same start time in their order in
    the story. *)
Theorem play_gets_clips_in_start_order (s : State) :
  (isCurrentlyPlaying storyId s = true ->
   handlePlayPause storyId items s = [store_pause])
  /\ (isCurrentlyPlaying storyId s = false ->
      exists l : list Item.StoryItemDetail,
        handlePlayPause storyId items s = [store_play storyId l]
        /\ Permutation items l
        /\ StronglySorted byStart l
        /\ forall t : Z, filter (startsAt t) l = filter (startsAt t) items).
Proof.
  unfold handlePlayPause. split; intro P; rewrite P; [reflexivity|].
  exists (sortedItems items). split; [reflexivity|].
  unfold sortedItems.
  induction items as [|x l IH]; simpl.
  - split; [constructor|]. split; [constructor | reflexivity].
  - destruct IH as [Pm [St Fl]]. split.
    + rewrite <- insertByStart_perm. now apply perm_skip.
    + split; [now apply insertByStart_sorted|].
      intro t. rewrite insertByStart_filter. simpl. now rewrite Fl.
Qed.

End PlayingOrder.

(** ** Split and the keyboard *)

Section Keyboard.

Variable storyId : string.
Variable items : list Item.StoryItemDetail.




End Keyboard.

(** ** Witnesses for the invariants of the reachable states *)

(** Five clicks on the zoom-in button. *)
Lemma reachable_zoom_range_witness :
  let p := {| buttonDown := false; overTimeline := false |} in
  let s0 := initialState (Sample.storeAt None false 0) (Some Sample.container) in
  let zoom := Click ZoomInButton (Sample.at_ 900 280) in
  let s5 := snd (run Sample.storyId Sample.items [zoom; zoom; zoom; zoom; zoom] (p, s0)) in
  reachable Sample.storyId Sample.items p s5
  /\ 10 <= pixelsPerSecond s5 <= 200.
Proof.
  intros p s0 zoom s5.
  assert (R : reachable Sample.storyId Sample.items p s5).
  { do 5 (apply (reachable_step Sample.storyId Sample.items p _ zoom);
          [|reflexivity]).
    apply reachable_init. reflexivity. }
  split; [exact R|].
  exact (reachable_zoom_range Sample.storyId Sample.items p s5 R).
Defined.

(** A whole trim gesture: press on the start handle, one move, release. *)
Lemma reachable_idle_no_temp_witness :
  let s0 := initialState (Sample.storeAt (Some "a"%string) false 0)
                         (Some Sample.container) in
  let press := MouseDown (TrimHandle Sample.clipA SideStart) (Sample.at_ 124 380) in
  let evs := [press; MouseMove (Sample.at_ 130 380); MouseUp] in
  let ps := run Sample.storyId Sample.items evs (Sample.pointer0, s0) in
  reachable Sample.storyId Sample.items (fst ps) (snd ps)
  /\ tempTrimValues (trim (snd ps)) = None.
Proof.
  intros s0 press evs ps.
  assert (R : reachable Sample.storyId Sample.items (fst ps) (snd ps)).
  { apply (reachable_step Sample.storyId Sample.items _ _ MouseUp); [|reflexivity].
    apply (reachable_step Sample.storyId Sample.items _ _
             (MouseMove (Sample.at_ 130 380))); [|reflexivity].
    apply (reachable_step Sample.storyId Sample.items _ _ press); [|reflexivity].
    apply reachable_init. reflexivity. }
  split; [exact R|].
  exact (proj2 (reachable_idle_no_temp Sample.storyId Sample.items _ _ R) eq_refl).
Defined.
